(** * FiniteStateMachine: a shallow embedding of the Irrelon FSM runtime

    The class [FiniteStateMachine] keeps a registry of state definitions
    (objects whose properties are callbacks), a registry of transition
    checks keyed by (from, to), a history array of previous states and a
    queue of pending transition closures.  Its public operations are
    [async] functions: they run synchronously up to the first host
    callback they await and are resumed when that callback's promise
    settles.

    The embedding has three layers.
    - The data: JavaScript values, callbacks, the fields of the class.
    - The code: every method is written once, in a small monad [prog]
      whose effects are the ones the source has: reading and writing the
      fields of [this], throwing, and awaiting a host callback.
    - Two interpreters of [prog]: [exec] settles every awaited callback
      before anything else happens (a caller that awaits each call), and
      [step] keeps suspended calls in a pool and lets a schedule decide
      which host call or which settlement happens next.

    Modelling conventions.
    - A JavaScript object used as a dictionary is a [gmap string _] of
      its own properties.  A read [o[k]] that finds no own property goes
      on to [Object.prototype]: the registries are created as [{}], so
      the twelve member names of [Object.prototype] are found in them
      without ever being registered.  What the built-in functions do
      when the machine calls them is not in the sources: it is a
      parameter, the [Realm].  An assignment to the key [__proto__],
      which replaces the prototype of an object, is not modelled.
    - A callback is a host function from its argument list to the way its
      promise settles, by fulfilling with a value (an [Error] object is a
      value) or by rejecting.  Under [exec] a callback settles at once
      and leaves the machine alone; what a callback, or any other host
      code, does to the machine while a call is suspended is a host
      action of the schedule of [step], and a callback whose promise
      never settles is a suspension that the schedule never resumes.
    - [this.log] only prints when the debug flag is set and is left out. *)

From Stdlib Require Import String Ascii ZArith List Lia.
From stdpp Require Import base option list gmap strings.

Local Open Scope string_scope.
Local Open Scope list_scope.

(** ** JavaScript values *)

Inductive ErrorClass : Type :=
| PlainError     (* new Error(message) *)
| TypeError.     (* thrown by the engine on a property read of undefined *)

Inductive value : Type :=
| VUndefined
| VBool (b : bool)
| VNum (n : Z)
| VStr (s : string)
| VErr (class : ErrorClass) (message : string)
| VBuiltin (key : string).   (* the value of Object.prototype[key] *)

(** [v instanceof Error]; a [TypeError] is an [Error] too. *)
Definition instanceof_Error (v : value) : bool :=
  match v with
  | VErr _ _ => true
  | _ => false
  end.

(** [!s] for a string [s]: only the empty string is falsy. *)
Definition falsy (s : string) : bool :=
  match s with
  | EmptyString => true
  | String _ _ => false
  end.

Definition dq : string := String "034"%char EmptyString.

(** ** Object.prototype

    The property names every object created by [{}] inherits.  Each of
    them reads as a truthy value: a built-in function, or
    [Object.prototype] itself for [__proto__]. *)
Definition Object_prototype : list string :=
  ["constructor"; "__defineGetter__"; "__defineSetter__"; "hasOwnProperty";
   "__lookupGetter__"; "__lookupSetter__"; "isPrototypeOf";
   "propertyIsEnumerable"; "toString"; "valueOf"; "__proto__";
   "toLocaleString"].

Definition inherited (key : string) : bool :=
  existsb (String.eqb key) Object_prototype.

(** ** Callbacks and registries *)

(** How the promise returned by a host callback settles. *)
Inductive settled : Type :=
| Fulfils (v : value)
| Rejects (reason : value).

Abbreviation callback := (list value -> settled).

(** A state definition is an object whose properties are callbacks:
    [enter], [exit] and any number of event handlers. *)
Abbreviation EventDefinition := (gmap string callback).
Abbreviation StateDefinition := (gmap string (gmap string callback)).

(** What [this._states[stateName]] can be: a definition given to
    [defineState], or the value the empty registry inherits under a
    member name of [Object.prototype]. *)
Inductive StateObject : Type :=
| Defined (definition : EventDefinition)
| Builtin (key : string).

(** [stateObj.enter] and [stateObj.exit]: neither name is a member of
    [Object.prototype] or of a built-in function, so the read finds an
    own property of a definition or nothing. *)
#[global] Instance StateObject_lookup : Lookup string callback StateObject :=
  fun key stateObj =>
    match stateObj with
    | Defined definition => definition !! key
    | Builtin _ => None
    end.

(** The built-in functions are no code of the machine: what they do is
    a parameter.  [native this key] is the call of
    [Object.prototype[key]] that the machine makes on the receiver
    [this] ([None] when the function is called without a receiver, the
    own properties of the receiver otherwise), as a callback: the value
    it returns, which the awaiting method receives, or the exception it
    throws.  [builtin_member b key] is the member [key] of the value
    [Object.prototype[b]] when that member is truthy, as the callback
    its call on that value is.  Like a callback under [exec], a
    built-in is taken to leave the registries alone ([__defineGetter__]
    and [__defineSetter__], which write to their receiver when they are
    passed a function, are not followed), and the exception it throws
    reaches the method as the rejection of an awaited promise does. *)
Class Realm : Type := {
  native : option EventDefinition -> string -> callback;
  builtin_member : string -> string -> option callback
}.

Inductive direction : Type := forward | backward.

Record PreviousState : Type := mkPreviousState {
  name : string;
  args : list value
}.

(** The closures pushed on [_transitionQueue] by [enterState] and
    [exitState] have the same body and differ in the variables they
    capture: the target, the direction handed to [_transitionStates] and
    the argument list. *)
Record TransitionPromise : Type := mkTransitionPromise {
  tp_newStateName : string;
  tp_direction : direction;
  tp_rest : list value
}.

Record FiniteStateMachine : Type := mkFSM {
  _states : StateDefinition;
  _transitions : gmap string (gmap string callback);
  _initialStateName : string;
  _currentStateName : string;
  _previousStates : list PreviousState;
  _transitionQueue : list TransitionPromise;
  _transitioning : bool;
  _data : gmap string value;
  _debug : bool
}.

(** The constructor called without [initialData]. *)
Definition new_FiniteStateMachine : FiniteStateMachine :=
  {| _states := ∅;
     _transitions := ∅;
     _initialStateName := EmptyString;
     _currentStateName := EmptyString;
     _previousStates := [];
     _transitionQueue := [];
     _transitioning := false;
     _data := ∅;
     _debug := false |}.

(** Field assignments [this._x = v]. *)
Definition set_states (v : StateDefinition) (m : FiniteStateMachine) :=
  mkFSM v (_transitions m) (_initialStateName m) (_currentStateName m)
        (_previousStates m) (_transitionQueue m) (_transitioning m)
        (_data m) (_debug m).
Definition set_transitions (v : gmap string (gmap string callback))
    (m : FiniteStateMachine) :=
  mkFSM (_states m) v (_initialStateName m) (_currentStateName m)
        (_previousStates m) (_transitionQueue m) (_transitioning m)
        (_data m) (_debug m).
Definition set_initialStateName (v : string) (m : FiniteStateMachine) :=
  mkFSM (_states m) (_transitions m) v (_currentStateName m)
        (_previousStates m) (_transitionQueue m) (_transitioning m)
        (_data m) (_debug m).
Definition set_currentStateName (v : string) (m : FiniteStateMachine) :=
  mkFSM (_states m) (_transitions m) (_initialStateName m) v
        (_previousStates m) (_transitionQueue m) (_transitioning m)
        (_data m) (_debug m).
Definition set_previousStates (v : list PreviousState)
    (m : FiniteStateMachine) :=
  mkFSM (_states m) (_transitions m) (_initialStateName m)
        (_currentStateName m) v (_transitionQueue m) (_transitioning m)
        (_data m) (_debug m).
Definition set_transitionQueue (v : list TransitionPromise)
    (m : FiniteStateMachine) :=
  mkFSM (_states m) (_transitions m) (_initialStateName m)
        (_currentStateName m) (_previousStates m) v (_transitioning m)
        (_data m) (_debug m).
Definition set_transitioning (v : bool) (m : FiniteStateMachine) :=
  mkFSM (_states m) (_transitions m) (_initialStateName m)
        (_currentStateName m) (_previousStates m) (_transitionQueue m) v
        (_data m) (_debug m).
Definition set_data (v : gmap string value) (m : FiniteStateMachine) :=
  mkFSM (_states m) (_transitions m) (_initialStateName m)
        (_currentStateName m) (_previousStates m) (_transitionQueue m)
        (_transitioning m) v (_debug m).
Definition set_debug (v : bool) (m : FiniteStateMachine) :=
  mkFSM (_states m) (_transitions m) (_initialStateName m)
        (_currentStateName m) (_previousStates m) (_transitionQueue m)
        (_transitioning m) (_data m) v.

(** ** Synchronous methods *)

Definition initialStateName (m : FiniteStateMachine) : string :=
  _initialStateName m.
Definition currentStateName (m : FiniteStateMachine) : string :=
  _currentStateName m.
Definition previousStates (m : FiniteStateMachine) : list PreviousState :=
  _previousStates m.
(** [this._previousStates[this._previousStates.length - 1]] *)
Definition previousState (m : FiniteStateMachine) : option PreviousState :=
  last (_previousStates m).
(** [this._previousStates[this._previousStates.length - 1].name]; [None]
    stands for the [TypeError] of the read on an empty history. *)
Definition previousStateName (m : FiniteStateMachine) : option string :=
  name <$> last (_previousStates m).
Definition setData (key : string) (val : value) (m : FiniteStateMachine) :=
  set_data (<[key := val]> (_data m)) m.

(** [debug(val)]: a setter that returns [this] when [val] is given, a
    getter otherwise. *)
Definition debug (val : option bool) (m : FiniteStateMachine)
    : option bool * FiniteStateMachine :=
  match val with
  | Some b => (None, set_debug b m)
  | None => (Some (_debug m), m)
  end.

(** [states[stateName]] on a registry created as [{}]: the definition
    stored under the name, or else what the registry inherits. *)
Definition lookup_state (states : StateDefinition) (stateName : string)
    : option StateObject :=
  match states !! stateName with
  | Some definition => Some (Defined definition)
  | None => if inherited stateName then Some (Builtin stateName) else None
  end.

Definition getState (stateName : string) (m : FiniteStateMachine)
    : option StateObject :=
  lookup_state (_states m) stateName.

(** [defineState(name, definition = {})] *)
Definition defineState (stateName : string)
    (definition : option EventDefinition) (m : FiniteStateMachine)
    : FiniteStateMachine :=
  let m1 := set_states (<[stateName := default ∅ definition]> (_states m)) m in
  if falsy (_initialStateName m1)
  then set_initialStateName stateName m1
  else m1.

(** [defineTransition(fromState, toState, transitionCheck)]: [None] is the
    [false] the source returns when one of the three arguments is falsy. *)
Definition defineTransition (fromState toState : string)
    (transitionCheck : option callback) (m : FiniteStateMachine)
    : option FiniteStateMachine :=
  match transitionCheck with
  | Some check =>
      if falsy fromState || falsy toState then None
      else
        let inner := default ∅ (_transitions m !! fromState) in
        Some (set_transitions
                (<[fromState := <[toState := check]> inner]> (_transitions m))
                m)
  | None => None
  end.

(** [transitions[from] && transitions[from][to]].  The object under
    [from] is the one [defineTransition] stored, or the value the empty
    registry inherits.  [defineTransition] stores
    [transitions[from] || {}]: under an inherited name that is the
    built-in value itself, with the checks added to it. *)
Definition lookup_check {R : Realm}
    (transitions : gmap string (gmap string callback))
    (fromState toState : string) : option callback :=
  match transitions !! fromState with
  | Some inner =>
      match inner !! toState with
      | Some check => Some check
      | None =>
          if inherited fromState then builtin_member fromState toState
          else if inherited toState then Some (native (Some inner) toState)
          else None
      end
  | None =>
      if inherited fromState then builtin_member fromState toState else None
  end.

Definition transitionCheckOf {R : Realm} (fromState toState : string)
    (m : FiniteStateMachine) : option callback :=
  lookup_check (_transitions m) fromState toState.

(** [stateObj[eventName]], for the call the machine makes of it:
    [eventHandler(...rest)] with no receiver for the two hooks
    ([detached]), [stateObj[eventName](...rest)] for the current state. *)
Definition readHandler {R : Realm} (detached : bool) (stateObj : StateObject)
    (eventName : string) : option callback :=
  match stateObj with
  | Defined definition =>
      match definition !! eventName with
      | Some handler => Some handler
      | None =>
          if inherited eventName
          then Some (native (if detached then None else Some definition)
                            eventName)
          else None
      end
  | Builtin b => builtin_member b eventName
  end.

(** [this.getState(stateName) && this.getState(stateName)[eventName]] *)
Definition handlerOf {R : Realm} (stateName eventName : string)
    (m : FiniteStateMachine) : option callback :=
  getState stateName m ≫= (λ o, readHandler true o eventName).

(** ** The monad of asynchronous methods

    An [async] body reads and writes the fields of [this], may throw, and
    awaits host callbacks.  [Await l f args k] is [yield f(...args)]: the
    callback is invoked, the body is suspended, and [k] receives the value
    the promise fulfils with; a rejection is thrown at the [yield], and as
    no method of the class has a [try] it rejects the method's own
    promise.  An [await] of another method of the class is the sequencing
    of the monad: the called method runs at once, up to its own first
    [yield]; the hops that hand its value back to the caller are not
    steps of their own (see [start]).  [Spin] marks the end of the
    recursion budget of [_processTransition]. *)

Inductive label : Type :=
| transitionCheck_of (fromState toState : string)
| exit_of (stateName : string)
| enter_of (stateName : string)
| handler_of (stateName eventName : string).

Inductive prog (A : Type) : Type :=
| Ret (a : A)
| Throw (e : value)
| Spin
| Get (k : FiniteStateMachine -> prog A)
| Put (m : FiniteStateMachine) (k : prog A)
| Await (l : label) (f : callback) (rest : list value) (k : value -> prog A).

Arguments Ret {A} a.
Arguments Throw {A} e.
Arguments Spin {A}.
Arguments Get {A} k.
Arguments Put {A} m k.
Arguments Await {A} l f rest k.

Fixpoint bind {A B : Type} (p : prog A) (f : A -> prog B) : prog B :=
  match p with
  | Ret a => f a
  | Throw e => Throw e
  | Spin => Spin
  | Get k => Get (fun m => bind (k m) f)
  | Put m k => Put m (bind k f)
  | Await l g rest k => Await l g rest (fun v => bind (k v) f)
  end.

Definition this : prog FiniteStateMachine := Get Ret.
Definition modify (f : FiniteStateMachine -> FiniteStateMachine) : prog unit :=
  Get (fun m => Put (f m) (Ret tt)).
Definition await (l : label) (f : callback) (rest : list value) : prog value :=
  Await l f rest Ret.
Definition when (b : bool) (p : prog unit) : prog unit :=
  if b then p else Ret tt.

Declare Scope prog_scope.
Delimit Scope prog_scope with prog.
Notation "x <- p ;; q" := (bind p (fun x => q))
  (at level 100, p at next level, right associativity) : prog_scope.
Notation "p ;; q" := (bind p (fun _ => q))
  (at level 100, right associativity) : prog_scope.
Local Open Scope prog_scope.

(** ** Asynchronous methods *)

Definition initialState_message (stateName : string) : string :=
  "Cannot set initial state " +:+ dq +:+ stateName +:+ dq
  +:+ " because it does not exist!".

(** [initialState(stateName, ...rest)] *)
Definition initialState (stateName : string) (rest : list value)
    : prog value :=
  m <- this;;
  match getState stateName m with
  | None => Throw (VErr PlainError (initialState_message stateName))
  | Some newStateObj =>
      modify (set_initialStateName stateName);;
      modify (set_currentStateName stateName);;
      modify (set_previousStates []);;
      match newStateObj !! "enter" with
      | Some enter => await (enter_of stateName) enter rest
      | None => Ret VUndefined
      end
  end.

Definition transitionStates_message (currentName newStateName : string)
    : string :=
  "Cannot change states from " +:+ dq +:+ currentName +:+ dq +:+ " to " +:+ dq
  +:+ newStateName +:+ dq +:+ " states because at least one is not defined.".

(** The inner closure [goToNextState] of [_transitionStates]; it captures
    [newStateName], [newStateObj], [direction] and [rest]. *)
Definition goToNextState (newStateName : string)
    (newStateObj : StateObject) (dir : direction) (rest : list value)
    : prog value :=
  when (match dir with forward => true | backward => false end)
       (modify (fun m =>
          set_previousStates
            (_previousStates m ++ [mkPreviousState (_currentStateName m) rest])
            m));;
  modify (set_currentStateName newStateName);;
  m <- this;;
  when (String.eqb newStateName (_initialStateName m))
       (modify (set_previousStates []));;
  match newStateObj !! "enter" with
  | Some enter => await (enter_of newStateName) enter rest
  | None => Ret VUndefined
  end.

(** [_transitionStates(newStateName, direction, ...rest)] *)
Definition _transitionStates (newStateName : string) (dir : direction)
    (rest : list value) : prog value :=
  m <- this;;
  match getState (_currentStateName m) m, getState newStateName m with
  | Some currentStateObj, Some newStateObj =>
      match currentStateObj !! "exit" with
      | Some exit =>
          exitResult <- await (exit_of (_currentStateName m)) exit rest;;
          if instanceof_Error exitResult then Ret exitResult
          else goToNextState newStateName newStateObj dir rest
      | None => goToNextState newStateName newStateObj dir rest
      end
  | _, _ =>
      Ret (VErr PlainError
             (transitionStates_message (_currentStateName m) newStateName))
  end.

(** The body of the closure queued by [enterState] and [exitState]. *)
Definition func {R : Realm} (tp : TransitionPromise) : prog value :=
  let newStateName := tp_newStateName tp in
  m <- this;;
  if String.eqb newStateName (_currentStateName m) then Ret VUndefined
  else
    match transitionCheckOf (_currentStateName m) newStateName m with
    | None => _transitionStates newStateName (tp_direction tp) (tp_rest tp)
    | Some check =>
        result <- await (transitionCheck_of (_currentStateName m) newStateName)
                        check (tp_rest tp);;
        if instanceof_Error result then Ret result
        else _transitionStates newStateName (tp_direction tp) (tp_rest tp)
    end.

(** [_processTransition()].  The source recurses while the queue is not
    empty; [fuel] bounds the number of recursive calls.  The value of
    [yield func()] is dropped, as in the source.  The branch on a falsy
    [func] is dead: the queue only ever holds closures. *)
Fixpoint _processTransition {R : Realm} (fuel : nat) : prog value :=
  match fuel with
  | O => Spin
  | S fuel' =>
      m <- this;;
      match _transitionQueue m with
      | [] =>
          modify (set_transitioning false);;
          Ret VUndefined
      | f :: queue' =>
          modify (set_transitioning true);;
          modify (set_transitionQueue queue');;
          func f;;
          modify (set_transitioning false);;
          _processTransition fuel'
      end
  end.

(** The queue loses one closure per recursive call, so one call more
    than its length reaches the empty queue. *)
Definition drain {R : Realm} : prog value :=
  m <- this;;
  _processTransition (S (length (_transitionQueue m))).

Definition push_transition (tp : TransitionPromise) : prog unit :=
  modify (fun m => set_transitionQueue (_transitionQueue m ++ [tp]) m).

(** [enterState(newStateName, ...rest)] *)
Definition enterState {R : Realm} (newStateName : string) (rest : list value)
    : prog value :=
  push_transition (mkTransitionPromise newStateName forward rest);;
  drain.

Definition exitState_message : string :=
  "No previous state to transition to".

(** [exitState(...rest)] *)
Definition exitState {R : Realm} (rest : list value) : prog value :=
  m <- this;;
  match last (_previousStates m) with
  | None => Throw (VErr PlainError exitState_message)
  | Some previousState =>
      modify (fun m => set_previousStates (removelast (_previousStates m)) m);;
      let newStateName := name previousState in
      let dataArgs :=
        match rest with
        | [] => args previousState
        | _ :: _ => rest
        end in
      push_transition (mkTransitionPromise newStateName backward dataArgs);;
      drain
  end.

Definition raiseEvent_message (eventName : string) : string :=
  "Cannot read properties of undefined (reading '" +:+ eventName +:+ "')".

(** [raiseEvent(eventName, ...rest)].  [currentStateObj[eventName]] is
    read without a test on [currentStateObj]: on [undefined] the engine
    throws a [TypeError]. *)
Definition raiseEvent {R : Realm} (eventName : string) (rest : list value)
    : prog value :=
  m <- this;;
  match handlerOf "beforeAll" eventName m with
  | Some eventHandler =>
      await (handler_of "beforeAll" eventName) eventHandler rest;; Ret tt
  | None => Ret tt
  end;;
  m <- this;;
  match getState (_currentStateName m) m with
  | None => Throw (VErr TypeError (raiseEvent_message eventName))
  | Some currentStateObj =>
      result <-
        match readHandler false currentStateObj eventName with
        | Some h => await (handler_of (_currentStateName m) eventName) h rest
        | None => Ret VUndefined
        end;;
      m <- this;;
      match handlerOf "afterAll" eventName m with
      | Some eventHandler =>
          await (handler_of "afterAll" eventName) eventHandler rest;; Ret tt
      | None => Ret tt
      end;;
      Ret result
  end.

(** ** Running a method for a caller that awaits it

    [exec p m tr] runs [p] from the fields [m] for a caller that awaits
    the call and does nothing else meanwhile: every awaited callback is
    invoked, settles, and has left the machine alone when the body is
    resumed.  The trace records each callback invocation with the
    arguments it received.  A statement about [exec] says nothing of a
    callback that never settles or that calls back into the machine:
    those are schedules of [step], below. *)

Inductive event : Type :=
| Invoke (l : label) (rest : list value).

Inductive result (A : Type) : Type :=
| Fulfilled (a : A)
| Rejected (e : value)
| OutOfFuel.

Arguments Fulfilled {A} a.
Arguments Rejected {A} e.
Arguments OutOfFuel {A}.

Fixpoint exec {A : Type} (p : prog A) (m : FiniteStateMachine)
    (tr : list event) : result A * FiniteStateMachine * list event :=
  match p with
  | Ret a => (Fulfilled a, m, tr)
  | Throw e => (Rejected e, m, tr)
  | Spin => (OutOfFuel, m, tr)
  | Get k => exec (k m) m tr
  | Put m' k => exec k m' tr
  | Await l f rest k =>
      match f rest with
      | Fulfils v => exec (k v) m (tr ++ [Invoke l rest])
      | Rejects e => (Rejected e, m, tr ++ [Invoke l rest])
      end
  end.

Definition outcome {A : Type} (x : result A * FiniteStateMachine * list event)
    : result A := x.1.1.
Definition after {A : Type} (x : result A * FiniteStateMachine * list event)
    : FiniteStateMachine := x.1.2.
Definition trace {A : Type} (x : result A * FiniteStateMachine * list event)
    : list event := x.2.

(** ** Running methods whose callers do not wait

    A call runs synchronously up to its first [Await]; the suspended
    continuation then sits in a pool until the schedule settles the
    callback it waits for, and then runs up to the next callback it
    awaits.  Between two actions of the schedule the host, or a
    callback that is pending, may do anything to the machine: that is
    another action.  The hops between the promises of nested methods
    are part of the step that precedes them: the code they delay only
    clears [_transitioning], which nothing reads, and looks at the
    queue, which is empty after every synchronous step
    ([requests_never_wait]).  So a step that ends without a pending
    callback ([inl r], [Completed r]) tells the result the promise of
    the call will settle with and the state name, the history and the
    queue the call leaves, not the moment the promise settles nor the
    value of [_transitioning] before it does.  Calls are numbered in
    arrival order and every entry of the timeline carries the number of
    the call it belongs to. *)

Inductive note : Type :=
| Invoked (l : label) (rest : list value)
| Settled (l : label) (s : settled)
| Completed (r : result value).

Record suspension : Type := mkSuspension {
  waits_on : label;
  will_settle : settled;
  resume : value -> prog value
}.

Record world : Type := mkWorld {
  machine : FiniteStateMachine;
  pool : list (nat * suspension);
  timeline : list (nat * note);
  next_call : nat
}.

(** The synchronous part of a body: up to its first [Await] or its end. *)
Fixpoint start (p : prog value) (m : FiniteStateMachine)
    : FiniteStateMachine * (result value + (list value * suspension)) :=
  match p with
  | Ret a => (m, inl (Fulfilled a))
  | Throw e => (m, inl (Rejected e))
  | Spin => (m, inl OutOfFuel)
  | Get k => start (k m) m
  | Put m' k => start k m'
  | Await l f rest k => (m, inr (rest, mkSuspension l (f rest) k))
  end.

Definition proceed (id : nat) (p : prog value) (w : world) : world :=
  match start p (machine w) with
  | (m', inl r) =>
      mkWorld m' (pool w) (timeline w ++ [(id, Completed r)]) (next_call w)
  | (m', inr (rest, s)) =>
      mkWorld m' (pool w ++ [(id, s)])
              (timeline w ++ [(id, Invoked (waits_on s) rest)]) (next_call w)
  end.

Fixpoint take_suspension (id : nat) (l : list (nat * suspension))
    : option (suspension * list (nat * suspension)) :=
  match l with
  | [] => None
  | (i, s) :: l' =>
      if Nat.eqb i id then Some (s, l')
      else match take_suspension id l' with
           | Some (s', rest) => Some (s', (i, s) :: rest)
           | None => None
           end
  end.

Inductive action : Type :=
| call (p : prog value)     (* the host calls a method and does not wait *)
| settle (id : nat).        (* the callback awaited by call [id] settles *)

Definition step (a : action) (w : world) : world :=
  match a with
  | call p =>
      proceed (next_call w) p
              (mkWorld (machine w) (pool w) (timeline w) (S (next_call w)))
  | settle id =>
      match take_suspension id (pool w) with
      | None => w
      | Some (s, pool') =>
          let w' := mkWorld (machine w) pool'
                      (timeline w ++ [(id, Settled (waits_on s) (will_settle s))])
                      (next_call w) in
          match will_settle s with
          | Fulfils v => proceed id (resume s v) w'
          | Rejects e =>
              mkWorld (machine w') (pool w')
                      (timeline w' ++ [(id, Completed (Rejected e))])
                      (next_call w')
          end
      end
  end.

Definition run (schedule : list action) (w : world) : world :=
  fold_left (fun w a => step a w) schedule w.

Definition boot (m : FiniteStateMachine) : world := mkWorld m [] [] 0.

(** The calls that appear in a timeline, in order of appearance. *)
Definition calls_of (tl : list (nat * note)) : list nat := map fst tl.

(** A timeline is serialized when the entries of a call are contiguous
    and the calls appear in arrival order: the call numbers never
    decrease along it. *)
Fixpoint serialized (ids : list nat) : bool :=
  match ids with
  | [] => true
  | i :: rest =>
      match rest with
      | [] => true
      | j :: _ => Nat.leb i j && serialized rest
      end
  end.

(** ** Vocabulary of the statements *)

(** The result of an awaited callback, as the awaiting method sees it. *)
Definition settlement (s : settled) : result value :=
  match s with
  | Fulfils v => Fulfilled v
  | Rejects e => Rejected e
  end.

(** What [_processTransition] makes of the one closure it ran: the value
    of [yield func()] is dropped and the recursive call, on the empty
    queue, returns [undefined]; a rejection leaves through the [yield]
    before [_transitioning] is cleared. *)
Definition drained (x : result value * FiniteStateMachine * list event)
    : result value * FiniteStateMachine * list event :=
  match x with
  | (Fulfilled _, m, tr) => (Fulfilled VUndefined, set_transitioning false m, tr)
  | (Rejected e, m, tr) => (Rejected e, m, tr)
  | (OutOfFuel, m, tr) => (OutOfFuel, m, tr)
  end.

(** A sequence of [defineState] calls, first call first. *)
Definition defineStates (calls : list (string * option EventDefinition))
    (m : FiniteStateMachine) : FiniteStateMachine :=
  fold_left (fun m c => defineState c.1 c.2 m) calls m.

(** The public operations, for a host that awaits every promise. *)
Inductive operation : Type :=
| op_defineState (stateName : string) (definition : option EventDefinition)
| op_defineTransition (fromState toState : string) (check : option callback)
| op_initialState (stateName : string) (rest : list value)
| op_enterState (newStateName : string) (rest : list value)
| op_exitState (rest : list value)
| op_raiseEvent (eventName : string) (rest : list value)
| op_setData (key : string) (val : value)
| op_debug (val : option bool).

Definition perform {R : Realm} (o : operation) (m : FiniteStateMachine)
    : FiniteStateMachine :=
  match o with
  | op_defineState n d => defineState n d m
  | op_defineTransition f t c => default m (defineTransition f t c m)
  | op_initialState n rest => after (exec (initialState n rest) m [])
  | op_enterState n rest => after (exec (enterState n rest) m [])
  | op_exitState rest => after (exec (exitState rest) m [])
  | op_raiseEvent e rest => after (exec (raiseEvent e rest) m [])
  | op_setData k v => setData k v m
  | op_debug b => (debug b m).2
  end.

Definition perform_all {R : Realm} (ops : list operation)
    (m : FiniteStateMachine)
    : FiniteStateMachine :=
  fold_left (fun m o => perform o m) ops m.

(** [initialState] called with a name under which [getState] finds a
    state object. *)
Definition successful_initialState (o : operation) (m : FiniteStateMachine)
    : bool :=
  match o with
  | op_initialState n _ =>
      match getState n m with Some _ => true | None => false end
  | _ => false
  end.

(** No operation of the sequence is a successful [initialState]. *)
Fixpoint no_successful_initialState {R : Realm} (ops : list operation)
    (m : FiniteStateMachine) : bool :=
  match ops with
  | [] => true
  | o :: ops' =>
      negb (successful_initialState o m)
      && no_successful_initialState ops' (perform o m)
  end.

(** The argument list [exitState] forwards: the caller's when it gave
    any, the popped entry's otherwise. *)
Definition dataArgs_of (rest : list value) (entry : PreviousState)
    : list value :=
  match rest with
  | [] => args entry
  | _ :: _ => rest
  end.

(** The number of callbacks a body awaits when each one settles at once. *)
Fixpoint awaits {A : Type} (p : prog A) (m : FiniteStateMachine) : nat :=
  match p with
  | Ret _ | Throw _ | Spin => 0
  | Get k => awaits (k m) m
  | Put m' k => awaits k m'
  | Await _ f rest k =>
      match f rest with
      | Fulfils v => S (awaits (k v) m)
      | Rejects _ => 1
      end
  end.

Definition with_machine (m : FiniteStateMachine) (w : world) : world :=
  mkWorld m (pool w) (timeline w) (next_call w).


(** Bodies that keep the queue empty: [steady p m] says that [p], run
    from [m] and resumed after each suspension in any machine whose queue
    is empty, reaches every suspension and its end with an empty queue
    and never exhausts the recursion budget. *)
Fixpoint steady (p : prog value) (m : FiniteStateMachine) : Prop :=
  match p with
  | Ret _ | Throw _ => _transitionQueue m = []
  | Spin => False
  | Get k => steady (k m) m
  | Put m' k => steady k m'
  | Await _ _ _ k =>
      _transitionQueue m = []
      /\ forall v m2, _transitionQueue m2 = [] -> steady (k v) m2
  end.

(** The actions of a host that only uses the asynchronous methods. *)
Inductive api {R : Realm} : action -> Prop :=
| api_initialState n rest : api (call (initialState n rest))
| api_enterState n rest : api (call (enterState n rest))
| api_exitState rest : api (call (exitState rest))
| api_raiseEvent e rest : api (call (raiseEvent e rest))
| api_settle id : api (settle id).

(** The queue is empty, every suspended call will keep it so, and no
    call has exhausted the recursion budget. *)
Definition calm (w : world) : Prop :=
  _transitionQueue (machine w) = []
  /\ Forall (fun c => forall v m2,
                _transitionQueue m2 = [] -> steady (resume c.2 v) m2) (pool w)
  /\ Forall (fun e => e.2 <> Completed OutOfFuel) (timeline w).

(** ** Example machines

    The examples are closed terms of a realm of their own, in which a
    built-in throws when the machine calls it and the built-in values
    have no members.  No example reads an inherited member, and the
    theorems they are witnesses of hold in every realm. *)

#[global] Instance example_realm : Realm :=
  {| native := fun _ _ _ => Rejects (VErr TypeError "not modelled");
     builtin_member := fun _ _ => None |}.

Definition resolves_later : callback := fun _ => Fulfils VUndefined.

(** The states of the repository's first test: [state1] has no callback,
    [state2] and [state3] have [enter] and [exit]. *)
Definition timed : EventDefinition :=
  <["enter" := resolves_later]> (<["exit" := resolves_later]> ∅).

Definition test_fsm : FiniteStateMachine :=
  defineState "state3" (Some timed)
    (defineState "state2" (Some timed)
       (defineState "state1" None new_FiniteStateMachine)).

(** The four states without callbacks of the repository's other tests. *)
Definition plain_fsm : FiniteStateMachine :=
  defineStates [("state1", None); ("state2", None); ("state3", None);
                ("state4", None)] new_FiniteStateMachine.

(** Three states; leaving [a] awaits an [exit] callback. *)
Definition leaves_slowly : EventDefinition :=
  <["exit" := resolves_later]> ∅.

Definition abc_fsm : FiniteStateMachine :=
  defineState "c" None
    (defineState "b" None
       (defineState "a" (Some leaves_slowly) new_FiniteStateMachine)).

(** The example of the documentation of [defineTransition]: the check
    from [idle] to [moving] refuses unless it is passed ["ok"]. *)
Definition ok_or_error : callback :=
  fun rest =>
    match rest with
    | VStr "ok" :: _ => Fulfils (VStr "whatever value you like")
    | _ => Fulfils (VErr PlainError "Some error")
    end.

Definition docs_fsm : FiniteStateMachine :=
  default new_FiniteStateMachine
    (defineTransition "idle" "moving" (Some ok_or_error)
       (defineState "moving" None
          (defineState "idle" None new_FiniteStateMachine))).

(** The same machine with a check on the way back that always refuses. *)
Definition refuses : callback :=
  fun _ => Fulfils (VErr PlainError "Not now").

Definition no_way_back_fsm : FiniteStateMachine :=
  default docs_fsm (defineTransition "moving" "idle" (Some refuses) docs_fsm).

(** A machine whose [beforeAll] handler for [ping] rejects. *)
Definition fails : callback :=
  fun _ => Rejects (VErr PlainError "boom").

Definition hooked_fsm : FiniteStateMachine :=
  defineState "beforeAll" (Some (<["ping" := fails]> ∅)) new_FiniteStateMachine.

(** A machine whose state [b] cannot be entered cleanly: its [enter]
    resolves to an error. *)
Definition enter_fails : callback :=
  fun _ => Fulfils (VErr PlainError "cannot enter").

Definition stubborn_fsm {R : Realm} : FiniteStateMachine :=
  perform (op_initialState "a" [])
    (defineState "b" (Some (<["enter" := enter_fails]> ∅))
       (defineState "a" None new_FiniteStateMachine)).

(** [docs_fsm] after [initialState("idle")]. *)
Definition idle_fsm {R : Realm} : FiniteStateMachine :=
  perform (op_initialState "idle" []) docs_fsm.

(** [no_way_back_fsm] after [initialState("idle")] and
    [enterState("moving", "ok")]. *)
Definition moved_fsm {R : Realm} : FiniteStateMachine :=
  perform_all [op_initialState "idle" []; op_enterState "moving" [VStr "ok"]]
              no_way_back_fsm.

(** [test_fsm] after [initialState("state1")] and [enterState("state2", 1)]. *)
Definition entered_fsm {R : Realm} : FiniteStateMachine :=
  perform_all [op_initialState "state1" []; op_enterState "state2" [VNum 1]]
              test_fsm.

(** The calls of the repository's first test, made without waiting. *)
Definition unawaited_test {R : Realm} : list action :=
  [call (initialState "state1" []);
   call (enterState "state2" []);
   call (enterState "state3" [])].

(** Two transitions requested back to back on [abc_fsm]; the [exit]
    awaited by the second call settles before the one awaited by the
    first. *)
Definition racing_abc {R : Realm} : list action :=
  [call (initialState "a" []);
   call (enterState "b" []);
   call (enterState "c" []);
   settle 2;
   settle 1].

(** The same requests from a host that awaits each promise. *)
Definition awaited_abc : list operation :=
  [op_initialState "a" []; op_enterState "b" []; op_enterState "c" []].


(** ** The constructor with initial data

    The declaration of [InitialData] is not among the sources: the
    record has the two optional fields the constructor reads.
    [data_states] lists the entries of [initialData.states] in the order
    of [Object.entries].  The constructor calls [initialState] and drops
    its promise ([void]), so the machine it returns may have a call in
    flight: its result is a [world]. *)

Record InitialData : Type := mkInitialData {
  data_states : option (list (string * EventDefinition));
  data_initialState : option string
}.

Definition defineEntries (entries : list (string * EventDefinition))
    (m : FiniteStateMachine) : FiniteStateMachine :=
  fold_left (fun m e => defineState e.1 (Some e.2) m) entries m.

Definition constructor (initialData : option InitialData) : world :=
  match initialData with
  | None => boot new_FiniteStateMachine
  | Some d =>
      let m :=
        match data_states d with
        | Some entries => defineEntries entries new_FiniteStateMachine
        | None => new_FiniteStateMachine
        end in
      match data_initialState d with
      | Some n =>
          if falsy n then boot m
          else step (call (initialState n [])) (boot m)
      | None => boot m
      end
  end.

(** ** Vocabulary of the further properties *)

(** An optional callback, when present, resolves on [rest] to a value
    that is not an error. *)
Definition passes (o : option callback) (rest : list value) : Prop :=
  forall c, o = Some c ->
            exists v, c rest = Fulfils v /\ instanceof_Error v = false.

(** An optional callback, when present, fulfils on [rest]. *)
Definition fulfils (o : option callback) (rest : list value) : Prop :=
  forall c, o = Some c -> exists v, c rest = Fulfils v.

(** An optional callback is present and rejects on [rest] with the
    reason [r]. *)
Definition rejects (o : option callback) (rest : list value) (r : value)
    : Prop :=
  exists c, o = Some c /\ c rest = Rejects r.

(** Where a request ends at an optional callback of its path: [Some r]
    when the callback is there and rejects or resolves to an error, and
    [r] is then the result of the request; [None] when the callback is
    absent or resolves to a value that is no error, and the request goes
    on. *)
Definition stops (o : option callback) (rest : list value)
    : option (result value) :=
  match o with
  | None => None
  | Some c =>
      match c rest with
      | Fulfils v => if instanceof_Error v then Some (Fulfilled v) else None
      | Rejects r => Some (Rejected r)
      end
  end.

(** The invocation of an optional callback: nothing when it is absent. *)
Definition invoked (l : label) (o : option callback) (rest : list value)
    : list event :=
  match o with
  | Some _ => [Invoke l rest]
  | None => []
  end.

(** The synchronous part of a call stopped at the callback [l], which it
    invoked with [rest]. *)
Definition waiting_on (l : label) (rest : list value)
    (r : result value + (list value * suspension)) : Prop :=
  exists s, r = inr (rest, s) /\ waits_on s = l.

(** A body that assigns no field: run from [m], and resumed after each
    suspension from whatever machine it then finds, it leaves the
    machine as it finds it. *)
Fixpoint writes_nothing (p : prog value) (m : FiniteStateMachine) : Prop :=
  match p with
  | Ret _ | Throw _ | Spin => True
  | Get k => writes_nothing (k m) m
  | Put m' k => m' = m /\ writes_nothing k m'
  | Await _ _ _ k => forall v m2, writes_nothing (k v) m2
  end.

(** The actions of a host that only raises events. *)
Inductive raises {R : Realm} : action -> Prop :=
| raises_raiseEvent e rest : raises (call (raiseEvent e rest))
| raises_settle id : raises (settle id).

(** Every history entry names a state that [getState] finds, and so
    does the current state name when there is a history. *)
Definition history_found (m : FiniteStateMachine) : Prop :=
  Forall (fun entry => is_Some (getState (name entry) m)) (_previousStates m)
  /\ (_previousStates m = []
      \/ is_Some (getState (_currentStateName m) m)).

Definition quiescent (m : FiniteStateMachine) : Prop :=
  _transitionQueue m = [] /\ history_found m.

(** ** Further example machines *)

(** [test_fsm] after [initialState("state1")]. *)
Definition started_fsm {R : Realm} : FiniteStateMachine :=
  perform (op_initialState "state1" []) test_fsm.

(** A machine in state [a] whose [exit] resolves to an error. *)
Definition locked_fsm {R : Realm} : FiniteStateMachine :=
  perform (op_initialState "a" [])
    (defineState "b" None
       (defineState "a" (Some (<["exit" := refuses]> ∅))
          new_FiniteStateMachine)).

(** A machine in state [a] whose [exit] rejects. *)
Definition failing_fsm {R : Realm} : FiniteStateMachine :=
  perform (op_initialState "a" [])
    (defineState "b" None
       (defineState "a" (Some (<["exit" := fails]> ∅))
          new_FiniteStateMachine)).

(** A machine in state [on] with handlers of [ping] in [beforeAll], in
    [on] and in [afterAll]. *)
Definition pong : callback := fun _ => Fulfils (VStr "pong").

Definition observed_fsm {R : Realm} : FiniteStateMachine :=
  perform (op_initialState "on" [])
    (defineState "afterAll" (Some (<["ping" := resolves_later]> ∅))
       (defineState "beforeAll" (Some (<["ping" := resolves_later]> ∅))
          (defineState "on" (Some (<["ping" := pong]> ∅))
             new_FiniteStateMachine))).

(** A machine that was not started, with a [beforeAll] handler of
    [ping] that fulfils. *)
Definition waiting_fsm : FiniteStateMachine :=
  defineState "idle" None
    (defineState "beforeAll" (Some (<["ping" := resolves_later]> ∅))
       new_FiniteStateMachine).

(** [raiseEvent("ping")] on it; [initialState("idle")] is called while
    the handler is pending. *)
Definition late_start {R : Realm} : list action :=
  [call (raiseEvent "ping" []); call (initialState "idle" []); settle 0].

Definition sample_entries : list (string * EventDefinition) :=
  [("state1", ∅); ("state2", timed)].

(** ** Proof automation *)

(** Symbolic execution of a method body: unfold the interpreter on the
    body and split on every test the body makes. *)
Ltac run_body :=
  repeat (first
    [ progress cbn [exec start bind this modify await getState
                    _states _transitions _initialStateName _currentStateName
                    _previousStates _transitionQueue _transitioning _data
                    _debug set_states set_transitions set_initialStateName
                    set_currentStateName set_previousStates
                    set_transitionQueue set_transitioning set_data set_debug
                    initialStateName currentStateName previousStates
                    tp_newStateName tp_direction tp_rest name args
                    outcome after trace settlement fst snd] in *
    | case_match ]).

Ltac unfold_methods :=
  unfold initialState, enterState, exitState, raiseEvent, drain,
         push_transition, func, _transitionStates, goToNextState, when in *.

Ltac run_steady :=
  repeat first
    [ progress cbn [steady bind this modify await getState
                    _states _transitions _initialStateName _currentStateName
                    _previousStates _transitionQueue _transitioning _data
                    _debug set_states set_transitions set_initialStateName
                    set_currentStateName set_previousStates
                    set_transitionQueue set_transitioning set_data set_debug
                    tp_newStateName tp_direction tp_rest name args
                    app length _processTransition] in *
    | match goal with
      | H : _transitionQueue ?m = [] |- context [_transitionQueue ?m] =>
          rewrite H
      | |- _ /\ _ => split
      | |- forall _, _ => intro
      | |- [] = [] => reflexivity
      end
    | case_match ].

(** Use the hypotheses that say a check or an [exit] passes. *)
Ltac use_passes :=
  repeat match goal with
  | H : forall c, ?t = Some c -> _, Hc : ?t = Some ?c' |- _ =>
      destruct (H c' Hc) as (? & ? & ?); clear H
  | H : forall c, Some ?c' = Some c -> _ |- _ =>
      destruct (H c' eq_refl) as (? & ? & ?); clear H
  | H : forall c, None = Some c -> _ |- _ => clear H
  | H : (_ =? _) = true |- _ => apply String.eqb_eq in H
  end.

Ltac merge_settled :=
  repeat match goal with
  | H1 : ?f ?r = Fulfils ?a, H2 : ?f ?r = Fulfils ?b |- _ =>
      rewrite H1 in H2; injection H2 as <-
  end.

Ltac merge_rejected :=
  repeat match goal with
  | H1 : ?f ?r = Fulfils _, H2 : ?f ?r = Rejects _ |- _ =>
      rewrite H1 in H2; discriminate H2
  | H1 : ?f ?r = Rejects ?a, H2 : ?f ?r = Rejects ?b |- _ =>
      rewrite H1 in H2; injection H2 as <-
  end.

Ltac close_dispatch :=
  cbn; rewrite <- ?app_assoc, ?app_nil_r; split; reflexivity.

(** Discharge [passes] and [fulfils] on a concrete machine. *)
Ltac by_lookup :=
  let c := fresh "c" in
  let H := fresh "H" in
  intros c H; vm_compute in H;
  first [ discriminate H
        | injection H as <-; eexists; repeat split; reflexivity ].

(** * Properties *)

(** ** The two interpreters *)

Section Interpreters.

Context {A B : Type}.

Lemma exec_bind (p : prog A) (f : A -> prog B) m tr :
  exec (bind p f) m tr =
  match exec p m tr with
  | (Fulfilled a, m', tr') => exec (f a) m' tr'
  | (Rejected e, m', tr') => (Rejected e, m', tr')
  | (OutOfFuel, m', tr') => (OutOfFuel, m', tr')
  end.
Proof.
  revert m tr.
  induction p as [a|e| |k IH|m0 k IH|l g rest k IH]; intros m tr; simpl; auto.
  destruct (g rest); auto.
Qed.

(** The trace a body starts from has no influence on what it does. *)
Lemma exec_outcome_trace (p : prog A) m tr :
  outcome (exec p m tr) = outcome (exec p m [])
  /\ after (exec p m tr) = after (exec p m []).
Proof.
  revert m tr. induction p as [a|e| |k IH|m0 k IH|l g rest k IH];
    intros m tr; cbn [exec]; auto.
  destruct (g rest); [|split; reflexivity].
  destruct (IH v m (tr ++ [Invoke l rest])) as [-> ->].
  destruct (IH v m ([] ++ [Invoke l rest])) as [-> ->]. split; reflexivity.
Qed.

End Interpreters.

(** [exec] is [start] followed by the immediate settlement of the
    callback the body stopped at. *)
Lemma exec_start (p : prog value) m tr :
  exec p m tr =
  match start p m with
  | (m', inl r) => (r, m', tr)
  | (m', inr (rest, s)) =>
      match will_settle s with
      | Fulfils v => exec (resume s v) m' (tr ++ [Invoke (waits_on s) rest])
      | Rejects e => (Rejected e, m', tr ++ [Invoke (waits_on s) rest])
      end
  end.
Proof.
  revert m tr.
  induction p as [a|e| |k IH|m0 k IH|l g rest k IH]; intros m tr; simpl; auto.
Qed.

Lemma take_suspension_fresh id s l :
  take_suspension id l = None ->
  take_suspension id (l ++ [(id, s)]) = Some (s, l).
Proof.
  induction l as [|[i s'] l IH]; cbn; intros H.
  - rewrite Nat.eqb_refl. reflexivity.
  - destruct (Nat.eqb i id); [discriminate|].
    destruct (take_suspension id l) as [[? ?]|]; [discriminate|].
    rewrite IH by reflexivity. reflexivity.
Qed.

Lemma settle_absent id n w :
  take_suspension id (pool w) = None ->
  run (repeat (settle id) n) w = w.
Proof.
  intros H. induction n as [|n IH]; [reflexivity|].
  cbn [repeat run fold_left step]. rewrite H. exact IH.
Qed.

(** A call whose callbacks are settled one after the other, before any
    other action, ends in the machine and with the result [exec] gives. *)
Lemma proceed_settled id (p : prog value) : forall w n,
  take_suspension id (pool w) = None ->
  awaits p (machine w) <= n ->
  let x := exec p (machine w) [] in
  let w' := run (repeat (settle id) n) (proceed id p w) in
  machine w' = after x
  /\ pool w' = pool w
  /\ next_call w' = next_call w
  /\ exists tl, timeline w' = timeline w ++ tl ++ [(id, Completed (outcome x))].
Proof.
  induction p as [a|e| |k IH|m0 k IH|l g rest k IH]; intros w n Hf Hn.
  1-3: cbn zeta; unfold proceed; cbn [start];
    rewrite settle_absent by exact Hf; cbn;
    repeat split; exists []; reflexivity.
  - exact (IH (machine w) w n Hf Hn).
  - destruct (IH (with_machine m0 w) n Hf Hn) as (Hm & Hp & Hc & tl & Ht).
    repeat split; try assumption. exists tl. exact Ht.
  - cbn [awaits] in Hn. cbn zeta. unfold proceed. cbn [start].
    destruct n as [|n]; [destruct (g rest); lia|].
    cbn [repeat run fold_left step pool waits_on will_settle resume].
    rewrite (take_suspension_fresh _ _ _ Hf).
    cbn [exec]. destruct (g rest) as [v|e] eqn:Hg;
      cbn [waits_on will_settle resume machine pool timeline next_call].
    + set (w1 := mkWorld (machine w) (pool w)
                   ((timeline w ++ [(id, Invoked l rest)])
                    ++ [(id, Settled l (Fulfils v))]) (next_call w)).
      destruct (IH v w1 n Hf ltac:(cbn; lia)) as (Hm & Hp & Hc & tl & Ht).
      change (fold_left (fun w a => step a w) ?s ?x) with (run s x).
      destruct (exec_outcome_trace (k v) (machine w) ([] ++ [Invoke l rest]))
        as [-> ->].
      repeat split; try assumption.
      exists ([(id, Invoked l rest); (id, Settled l (Fulfils v))] ++ tl).
      rewrite Ht. unfold w1. cbn [timeline]. rewrite <- !app_assoc. reflexivity.
    + change (fold_left (fun w a => step a w) ?s ?x) with (run s x).
      rewrite settle_absent by exact Hf. cbn.
      repeat split.
      exists [(id, Invoked l rest); (id, Settled l (Rejects e))].
      rewrite <- !app_assoc. reflexivity.
Qed.

(** With no other call in flight, a call followed by the settlement of
    each callback it awaits is the awaited call of [exec]. *)
Lemma awaited_call_is_exec (p : prog value) w n :
  pool w = [] ->
  awaits p (machine w) <= n ->
  let x := exec p (machine w) [] in
  let w' := run (call p :: repeat (settle (next_call w)) n) w in
  machine w' = after x
  /\ pool w' = []
  /\ exists tl,
       timeline w' = timeline w ++ tl ++ [(next_call w, Completed (outcome x))].
Proof.
  intros Hp Hn.
  set (w0 := mkWorld (machine w) (pool w) (timeline w) (S (next_call w))).
  destruct (proceed_settled (next_call w) p w0 n) as (Hm & Hpool & _ & Htl).
  - cbn. rewrite Hp. reflexivity.
  - exact Hn.
  - cbn zeta. cbn [run fold_left step].
    change (fold_left (fun w a => step a w) ?s ?x) with (run s x).
    fold w0. split; [exact Hm|]. split; [rewrite Hpool; exact Hp|exact Htl].
Qed.

(** ** One queued request *)

Section Requests.

Context {R : Realm}
        (tp : TransitionPromise) (m : FiniteStateMachine) (tr : list event).

(** A request touches the current state name and the history only. *)
Lemma func_frame :
  let m' := after (exec (func tp) m tr) in
  _states m' = _states m /\ _transitions m' = _transitions m
  /\ _initialStateName m' = _initialStateName m
  /\ _transitionQueue m' = _transitionQueue m
  /\ _transitioning m' = _transitioning m
  /\ _data m' = _data m /\ _debug m' = _debug m.
Proof.
  unfold_methods. run_body; repeat split; reflexivity.
Qed.

Lemma func_settles :
  outcome (exec (func tp) m tr) <> OutOfFuel.
Proof.
  unfold_methods. run_body; discriminate.
Qed.

(** A request whose own result is not an error leaves the machine in
    its target. *)
Lemma func_success v :
  outcome (exec (func tp) m tr) = Fulfilled v ->
  instanceof_Error v = false ->
  currentStateName (after (exec (func tp) m tr)) = tp_newStateName tp.
Proof.
  unfold_methods.
  run_body; intros Ho Hv; simplify_eq; try reflexivity; try congruence.
  all: match goal with H : (_ =? _) = true |- _ => apply String.eqb_eq in H end.
  all: symmetry; assumption.
Qed.

(** A request that changes the current state to the initial one leaves
    an empty history. *)
Lemma func_history_cleared :
  let m' := after (exec (func tp) m tr) in
  currentStateName m' <> currentStateName m ->
  currentStateName m' = initialStateName m' ->
  previousStates m' = [].
Proof.
  unfold_methods. run_body; intros Hne Heq;
    try reflexivity; try (exfalso; apply Hne; reflexivity).
  all: match goal with
       | H : (_ =? _) = false |- _ => apply String.eqb_neq in H; contradiction
       end.
Qed.

End Requests.

(** A request whose check resolves to an error stops there: nothing
    changes and the error is the request's result. *)
Lemma refused_request {R : Realm} tp check e m tr :
  tp_newStateName tp <> currentStateName m ->
  transitionCheckOf (currentStateName m) (tp_newStateName tp) m = Some check ->
  check (tp_rest tp) = Fulfils e ->
  instanceof_Error e = true ->
  exec (func tp) m tr
  = (Fulfilled e, m,
     tr ++ [Invoke (transitionCheck_of (currentStateName m) (tp_newStateName tp))
                   (tp_rest tp)]).
Proof.
  unfold currentStateName. intros Hne Hg Hc He. unfold func.
  cbn [exec bind this].
  destruct (String.eqb (tp_newStateName tp) (_currentStateName m)) eqn:Heq;
    [apply String.eqb_eq in Heq; contradiction|].
  rewrite Hg. cbn [exec bind await]. rewrite Hc. cbn [exec]. rewrite He.
  reflexivity.
Qed.

(** A forward request that passes the check and the [exit] callback:
    the state changes before [enter] is awaited, and the request settles
    as [enter] does. *)
Lemma forward_request_with_enter {R : Realm} newStateName rest currentStateObj newStateObj
    enter m tr :
  newStateName <> currentStateName m ->
  getState (currentStateName m) m = Some currentStateObj ->
  getState newStateName m = Some newStateObj ->
  (forall check,
      transitionCheckOf (currentStateName m) newStateName m = Some check ->
      exists v, check rest = Fulfils v /\ instanceof_Error v = false) ->
  (forall exit,
      currentStateObj !! "exit" = Some exit ->
      exists v, exit rest = Fulfils v /\ instanceof_Error v = false) ->
  newStateObj !! "enter" = Some enter ->
  let y := exec (func (mkTransitionPromise newStateName forward rest)) m tr in
  outcome y = settlement (enter rest)
  /\ currentStateName (after y) = newStateName
  /\ previousStates (after y)
     = (if String.eqb newStateName (initialStateName m) then []
        else previousStates m ++ [mkPreviousState (currentStateName m) rest]).
Proof.
  intros Hne Hc Hn Hg He Henter. unfold_methods.
  unfold currentStateName, initialStateName, previousStates in *.
  run_body; simplify_eq;
  repeat match goal with
  | H : forall c, ?t = Some c -> _, Hc : ?t = Some ?c' |- _ =>
      destruct (H c' Hc) as (? & ? & ?); clear H
  | H : forall c, Some ?c' = Some c -> _ |- _ =>
      destruct (H c' eq_refl) as (? & ? & ?); clear H
  | H : (_ =? _) = true |- _ => apply String.eqb_eq in H
  end; simplify_eq; try congruence.
  all: repeat split; try reflexivity.
  all: try match goal with
           | H : ?f ?r = _ |- context [settlement (?f ?r)] =>
               rewrite H; reflexivity
           end.
Qed.

(** A request for the state the machine is in returns at once. *)
Lemma request_for_current_state {R : Realm} tp m tr :
  tp_newStateName tp = currentStateName m ->
  exec (func tp) m tr = (Fulfilled VUndefined, m, tr).
Proof.
  unfold currentStateName. intros H. unfold func. cbn [exec bind this].
  rewrite H, String.eqb_refl. reflexivity.
Qed.

(** What a request between two different states that [getState] finds
    does, in every case: the callbacks it invokes, its result, and the
    machine it leaves. *)
Lemma request_result {R : Realm} tp currentStateObj newStateObj m tr :
  tp_newStateName tp <> currentStateName m ->
  getState (currentStateName m) m = Some currentStateObj ->
  getState (tp_newStateName tp) m = Some newStateObj ->
  let rest := tp_rest tp in
  let check := transitionCheckOf (currentStateName m) (tp_newStateName tp) m in
  let exit := currentStateObj !! "exit" in
  let enter := newStateObj !! "enter" in
  let y := exec (func tp) m tr in
  trace y
  = tr ++ invoked (transitionCheck_of (currentStateName m) (tp_newStateName tp))
                  check rest
       ++ match stops check rest with
          | Some _ => []
          | None =>
              invoked (exit_of (currentStateName m)) exit rest
              ++ match stops exit rest with
                 | Some _ => []
                 | None => invoked (enter_of (tp_newStateName tp)) enter rest
                 end
          end
  /\ outcome y
     = match stops check rest with
       | Some r => r
       | None =>
           match stops exit rest with
           | Some r => r
           | None =>
               match enter with
               | Some c => settlement (c rest)
               | None => Fulfilled VUndefined
               end
           end
       end
  /\ match stops check rest, stops exit rest with
     | None, None =>
         currentStateName (after y) = tp_newStateName tp
         /\ previousStates (after y)
            = (if String.eqb (tp_newStateName tp) (initialStateName m) then []
               else match tp_direction tp with
                    | forward =>
                        previousStates m
                        ++ [mkPreviousState (currentStateName m) rest]
                    | backward => previousStates m
                    end)
     | _, _ => after y = m
     end.
Proof.
  unfold stops, invoked, currentStateName, initialStateName, previousStates.
  intros Hne Hc Hn. cbn zeta. unfold_methods.
  unfold getState, transitionCheckOf in *.
  run_body; simplify_eq; use_passes; simplify_eq; try congruence.
  all: rewrite <- ?app_assoc, ?app_nil_r; cbn [app].
  all: repeat split; try reflexivity.
  all: try match goal with
           | H : ?f ?r = _ |- context [settlement (?f ?r)] =>
               rewrite H; reflexivity
           end.
all: congruence.
Qed.

(** The inner closure alone: when the target is the initial state the
    history is empty as soon as the current state name is assigned,
    before [enter] is awaited. *)
Lemma goToNextState_clears newStateName newStateObj dir rest m :
  newStateName = initialStateName m ->
  let m' := (start (goToNextState newStateName newStateObj dir rest) m).1 in
  currentStateName m' = newStateName /\ previousStates m' = [].
Proof.
  intros ->. unfold_methods. unfold initialStateName.
  destruct dir; run_body; split; try reflexivity.
  all: match goal with
       | H : (_ =? _) = false |- _ => apply String.eqb_neq in H; contradiction
       end.
Qed.

(** ** Awaited calls with nothing else queued *)

Lemma drained_fields x :
  currentStateName (after (drained x)) = currentStateName (after x)
  /\ previousStates (after (drained x)) = previousStates (after x)
  /\ initialStateName (after (drained x)) = initialStateName (after x)
  /\ trace (drained x) = trace x.
Proof. destruct x as [[[v|e|] m] tr]; repeat split; reflexivity. Qed.

Lemma exec_drain_one {R : Realm} tp m tr :
  _transitionQueue m = [tp] ->
  exec drain m tr =
  drained (exec (func tp) (set_transitionQueue [] (set_transitioning true m)) tr).
Proof.
  intros Hq. unfold drain. cbn [exec bind this]. rewrite Hq.
  cbn [length _processTransition exec bind this]. rewrite Hq.
  cbn [exec bind modify]. rewrite exec_bind.
  pose proof (func_frame tp (set_transitionQueue [] (set_transitioning true m)) tr)
    as Hf.
  pose proof (func_settles tp (set_transitionQueue [] (set_transitioning true m)) tr)
    as Hs.
  destruct (exec (func tp) _ tr) as [[r m'] tr'].
  cbn in Hf, Hs. destruct Hf as (_ & _ & _ & Hq' & _).
  destruct r as [v|e|]; cbn; [|reflexivity|congruence].
  rewrite Hq'. reflexivity.
Qed.

(** [enterState] runs the request it queued and drops its result. *)
Lemma exec_enterState {R : Realm} newStateName rest m tr :
  _transitionQueue m = [] ->
  exec (enterState newStateName rest) m tr =
  drained (exec (func (mkTransitionPromise newStateName forward rest))
                (set_transitioning true m) tr).
Proof.
  intros Hq. unfold enterState, push_transition.
  cbn [exec bind modify].
  rewrite (exec_drain_one (mkTransitionPromise newStateName forward rest))
    by (cbn; rewrite Hq; reflexivity).
  destruct m; cbn in *; subst; reflexivity.
Qed.

(** [exitState] pops the history, then runs the request built from the
    popped entry and drops its result. *)
Lemma exec_exitState {R : Realm} rest entry m tr :
  _transitionQueue m = [] ->
  last (_previousStates m) = Some entry ->
  exec (exitState rest) m tr =
  drained (exec (func (mkTransitionPromise (name entry) backward
                         (dataArgs_of rest entry)))
                (set_transitioning true
                   (set_previousStates (removelast (_previousStates m)) m))
                tr).
Proof.
  intros Hq Hl. unfold exitState, push_transition.
  cbn [exec bind this]. rewrite Hl. cbn [exec bind modify].
  rewrite (exec_drain_one (mkTransitionPromise (name entry) backward
                             (dataArgs_of rest entry)))
    by (cbn; rewrite Hq; reflexivity).
  destruct m; cbn in *; subst; reflexivity.
Qed.

(** The awaited calls settle: the recursion budget of the drain is
    never exhausted. *)
Lemma enterState_settles {R : Realm} newStateName rest m tr :
  _transitionQueue m = [] ->
  outcome (exec (enterState newStateName rest) m tr) <> OutOfFuel.
Proof.
  intros Hq. rewrite (exec_enterState _ _ _ _ Hq).
  pose proof (func_settles (mkTransitionPromise newStateName forward rest)
                (set_transitioning true m) tr) as Hs.
  destruct (exec (func _) _ tr) as [[[v|e|] m'] tr']; cbn in *; congruence.
Qed.

Lemma exitState_settles {R : Realm} rest m tr :
  _transitionQueue m = [] ->
  outcome (exec (exitState rest) m tr) <> OutOfFuel.
Proof.
  intros Hq. destruct (last (_previousStates m)) as [entry|] eqn:Hl.
  - rewrite (exec_exitState _ _ _ _ Hq Hl).
    pose proof (func_settles (mkTransitionPromise (name entry) backward
                                (dataArgs_of rest entry))
                  (set_transitioning true
                     (set_previousStates (removelast (_previousStates m)) m))
                  tr) as Hs.
    destruct (exec (func _) _ tr) as [[[v|e|] m'] tr']; cbn in *; congruence.
  - unfold exitState. cbn [exec bind this]. rewrite Hl. discriminate.
Qed.

(** The value an awaited [enterState] fulfils with is [undefined],
    whatever its request returned. *)
Lemma enterState_fulfils_undefined {R : Realm} newStateName rest m tr v :
  _transitionQueue m = [] ->
  outcome (exec (enterState newStateName rest) m tr) = Fulfilled v ->
  v = VUndefined.
Proof.
  intros Hq. rewrite (exec_enterState _ _ _ _ Hq).
  destruct (exec (func _) _ tr) as [[[v'|e|] m'] tr']; cbn; congruence.
Qed.

Lemma refused_enterState {R : Realm} newStateName rest check e m tr :
  _transitionQueue m = [] ->
  newStateName <> currentStateName m ->
  transitionCheckOf (currentStateName m) newStateName m = Some check ->
  check rest = Fulfils e ->
  instanceof_Error e = true ->
  exec (enterState newStateName rest) m tr
  = (Fulfilled VUndefined, set_transitioning false m,
     tr ++ [Invoke (transitionCheck_of (currentStateName m) newStateName) rest]).
Proof.
  intros Hq Hne Hg Hc He. rewrite (exec_enterState _ _ _ _ Hq).
  rewrite (refused_request (mkTransitionPromise newStateName forward rest)
             check e (set_transitioning true m) tr Hne Hg Hc He).
  reflexivity.
Qed.

(** A refused [exitState] has already popped the history. *)
Lemma refused_exitState {R : Realm} rest entry check e m tr :
  _transitionQueue m = [] ->
  last (_previousStates m) = Some entry ->
  name entry <> currentStateName m ->
  transitionCheckOf (currentStateName m) (name entry) m = Some check ->
  check (dataArgs_of rest entry) = Fulfils e ->
  instanceof_Error e = true ->
  exec (exitState rest) m tr
  = (Fulfilled VUndefined,
     set_transitioning false
       (set_previousStates (removelast (_previousStates m)) m),
     tr ++ [Invoke (transitionCheck_of (currentStateName m) (name entry))
                   (dataArgs_of rest entry)]).
Proof.
  intros Hq Hl Hne Hg Hc He. rewrite (exec_exitState _ _ _ _ Hq Hl).
  rewrite (refused_request
             (mkTransitionPromise (name entry) backward (dataArgs_of rest entry))
             check e
             (set_transitioning true
                (set_previousStates (removelast (_previousStates m)) m))
             tr Hne Hg Hc He).
  reflexivity.
Qed.

(** A call of [enterState] never leaves its request in the queue: it
    dequeues and starts it in the same synchronous step, whatever
    [_transitioning] says. *)
Lemma enterState_starts_at_once {R : Realm} newStateName rest m :
  _transitionQueue m = [] ->
  _transitionQueue (start (enterState newStateName rest) m).1 = [].
Proof.
  intros Hq. unfold_methods. cbn [start bind modify this]. rewrite Hq.
  cbn [app length _processTransition]. unfold_methods.
  run_body; reflexivity.
Qed.

Lemma initialState_body stateName rest newStateObj m tr :
  getState stateName m = Some newStateObj ->
  let x := exec (initialState stateName rest) m tr in
  initialStateName (after x) = stateName
  /\ currentStateName (after x) = stateName
  /\ previousStates (after x) = []
  /\ match newStateObj !! "enter" with
     | Some enter =>
         outcome x = settlement (enter rest)
         /\ trace x = tr ++ [Invoke (enter_of stateName) rest]
     | None => outcome x = Fulfilled VUndefined /\ trace x = tr
     end.
Proof.
  intros H. unfold initialState. cbn [exec bind this]. rewrite H.
  run_body; simplify_eq; repeat split; try reflexivity.
  all: match goal with H : _ = _ |- _ => rewrite H end; reflexivity.
Qed.

Lemma raiseEvent_machine {R : Realm} eventName rest m tr :
  after (exec (raiseEvent eventName rest) m tr) = m.
Proof. unfold_methods. run_body; reflexivity. Qed.

(** ** The queue of calls that are not awaited *)

Lemma steady_func_then {R : Realm} (k : value -> prog value) tp m :
  _transitionQueue m = [] ->
  (forall v m2, _transitionQueue m2 = [] -> steady (k v) m2) ->
  steady (bind (func tp) k) m.
Proof.
  intros Hq Hk. unfold_methods.
  run_steady; try (apply Hk; cbn; assumption); try assumption.
Qed.

Lemma steady_drain_one {R : Realm} tp m :
  _transitionQueue m = [tp] ->
  steady drain m.
Proof.
  intros Hq. unfold drain. cbn [steady bind this]. rewrite Hq.
  cbn [length _processTransition steady bind this]. rewrite Hq.
  cbn [steady bind modify].
  apply steady_func_then; [reflexivity|].
  intros v m2 H2. run_steady.
Qed.

Lemma steady_api {R : Realm} p m :
  api (call p) ->
  _transitionQueue m = [] ->
  steady p m.
Proof.
  intros Ha Hq. inversion Ha; subst.
  - unfold_methods. run_steady; assumption.
  - unfold enterState, push_transition. cbn [steady bind modify].
    apply (steady_drain_one (mkTransitionPromise n forward rest)).
    cbn. rewrite Hq. reflexivity.
  - unfold exitState, push_transition. cbn [steady bind this].
    destruct (last (_previousStates m)) as [entry|]; [|exact Hq].
    cbn [steady bind modify].
    eapply steady_drain_one. cbn. rewrite Hq. reflexivity.
  - unfold_methods. run_steady; assumption.
Qed.

Lemma steady_start p m :
  steady p m ->
  match start p m with
  | (m', inl r) => _transitionQueue m' = [] /\ r <> OutOfFuel
  | (m', inr (_, s)) =>
      _transitionQueue m' = []
      /\ forall v m2, _transitionQueue m2 = [] -> steady (resume s v) m2
  end.
Proof.
  revert m. induction p as [a|e| |k IH|m0 k IH|l g rest k IH]; intros m H;
    cbn [start steady resume] in *;
    try contradiction; try (split; [exact H|discriminate]); auto.
  - apply IH, H.
  - apply IH, H.
Qed.

Lemma calm_proceed id p w :
  calm w -> steady p (machine w) -> calm (proceed id p w).
Proof.
  intros (Hq & Hp & Ht) Hs. unfold proceed.
  pose proof (steady_start p (machine w) Hs) as H.
  destruct (start p (machine w)) as [m' [r|[rest s]]].
  - destruct H as [Hq' Hr]. repeat split; cbn; [exact Hq'|exact Hp|].
    apply Forall_app; split; [exact Ht|].
    constructor; [cbn; congruence|constructor].
  - destruct H as [Hq' Hk]. repeat split; cbn; [exact Hq'| |].
    + apply Forall_app; split; [exact Hp|]. constructor; [exact Hk|constructor].
    + apply Forall_app; split; [exact Ht|].
      constructor; [cbn; discriminate|constructor].
Qed.

Lemma take_suspension_Forall (P : nat * suspension -> Prop) id l s l' :
  take_suspension id l = Some (s, l') ->
  Forall P l ->
  (exists i, P (i, s)) /\ Forall P l'.
Proof.
  revert l'. induction l as [|[i c] l IH]; intros l' H HF; [discriminate|].
  cbn in H. inversion HF as [|? ? Hc Hl]; subst.
  destruct (Nat.eqb i id).
  - injection H as <- <-. split; [exists i; exact Hc|exact Hl].
  - destruct (take_suspension id l) as [[s0 l0]|]; [|discriminate].
    injection H as <- <-. destruct (IH l0 eq_refl Hl) as [Hs Hl0].
    split; [exact Hs|]. constructor; assumption.
Qed.

Lemma calm_step {R : Realm} a w :
  api a -> calm w -> calm (step a w).
Proof.
  intros Ha Hw. destruct a as [p|id]; cbn [step].
  - apply calm_proceed.
    + destruct Hw as (Hq & Hp & Ht). repeat split; assumption.
    + apply steady_api; [exact Ha|]. apply Hw.
  - destruct (take_suspension id (pool w)) as [[s pool']|] eqn:Htake;
      [|exact Hw].
    destruct Hw as (Hq & Hp & Ht).
    destruct (take_suspension_Forall _ _ _ _ _ Htake Hp) as [[i Hs] Hp'].
    cbn in Hs.
    assert (Ht' : Forall (fun e : nat * note => e.2 <> Completed OutOfFuel)
                    (timeline w ++ [(id, Settled (waits_on s) (will_settle s))])).
    { apply Forall_app; split; [exact Ht|].
      constructor; [cbn; discriminate|constructor]. }
    destruct (will_settle s) as [v|e].
    + apply calm_proceed; [repeat split; assumption|].
      apply Hs. exact Hq.
    + repeat split; cbn; [exact Hq|exact Hp'|].
      apply Forall_app; split; [exact Ht'|].
      constructor; [cbn; discriminate|constructor].
Qed.

(** Whatever the host calls and whenever the callbacks settle, no
    request is ever left waiting in the queue: each call dequeues the
    request it queued in the same synchronous step, so the queue is
    empty after every action; and no call exhausts the recursion budget
    of [_processTransition]. *)
Lemma requests_never_wait {R : Realm} schedule m :
  Forall api schedule ->
  _transitionQueue m = [] ->
  calm (run schedule (boot m)).
Proof.
  intros Hs Hq.
  assert (H0 : calm (boot m)) by (repeat split; [exact Hq|constructor|constructor]).
  revert H0. generalize (boot m).
  induction Hs as [|a schedule Ha Hs IH]; intros w Hw; [exact Hw|].
  cbn [run fold_left]. apply IH. apply calm_step; assumption.
Qed.

(** ** The initial state name *)

Lemma falsy_false s : s <> EmptyString -> falsy s = false.
Proof. destruct s; [congruence|reflexivity]. Qed.

Lemma defineState_initial_kept stateName definition m :
  falsy (_initialStateName m) = false ->
  _initialStateName (defineState stateName definition m) = _initialStateName m.
Proof. intros H. unfold defineState. cbn. rewrite H. reflexivity. Qed.

Lemma defineStates_initial_kept calls m :
  falsy (_initialStateName m) = false ->
  _initialStateName (defineStates calls m) = _initialStateName m.
Proof.
  revert m. induction calls as [|[n d] calls IH]; intros m Hf; [reflexivity|].
  cbn [defineStates fold_left].
  change (fold_left _ calls ?x) with (defineStates calls x).
  pose proof (defineState_initial_kept n d m Hf) as Hk.
  rewrite IH; [exact Hk | cbn [fst snd]; rewrite Hk; exact Hf].
Qed.

Lemma processTransition_initial {R : Realm} fuel m tr :
  _initialStateName (after (exec (_processTransition fuel) m tr))
  = _initialStateName m.
Proof.
  revert m tr. induction fuel as [|fuel IH]; intros m tr; [reflexivity|].
  cbn [_processTransition exec bind this].
  destruct (_transitionQueue m) as [|f queue']; [reflexivity|].
  cbn [exec bind modify]. rewrite exec_bind.
  pose proof (func_frame f (set_transitionQueue queue' (set_transitioning true m)) tr)
    as (_ & _ & Hi & _).
  destruct (exec (func f) _ tr) as [[[v|e|] m'] tr']; cbn in Hi |- *;
    try exact Hi.
  rewrite IH. exact Hi.
Qed.

Lemma perform_initial_kept {R : Realm} o m :
  falsy (_initialStateName m) = false ->
  successful_initialState o m = false ->
  _initialStateName (perform o m) = _initialStateName m.
Proof.
  intros Hf Hs.
  destruct o as [n d|f t c|n rest|n rest|rest|e rest|k v|b]; cbn [perform].
  - apply defineState_initial_kept, Hf.
  - unfold defineTransition. destruct c; [|reflexivity].
    destruct (falsy f || falsy t); reflexivity.
  - cbn in Hs. unfold initialState. cbn [exec bind this].
    destruct (getState n m); [discriminate|reflexivity].
  - unfold enterState, push_transition, drain. cbn [exec bind modify this].
    rewrite processTransition_initial. reflexivity.
  - unfold exitState, push_transition, drain. cbn [exec bind this].
    destruct (last (_previousStates m)); [|reflexivity].
    cbn [exec bind modify this]. rewrite processTransition_initial. reflexivity.
  - rewrite raiseEvent_machine. reflexivity.
  - reflexivity.
  - destruct b; reflexivity.
Qed.

Lemma perform_all_initial_kept {R : Realm} ops m :
  falsy (_initialStateName m) = false ->
  no_successful_initialState ops m = true ->
  _initialStateName (perform_all ops m) = _initialStateName m.
Proof.
  revert m. induction ops as [|o ops IH]; intros m Hf Hq; [reflexivity|].
  cbn in Hq. apply andb_prop in Hq as [Ho Hq].
  apply negb_true_iff in Ho.
  pose proof (perform_initial_kept o m Hf Ho) as Hk.
  cbn [perform_all fold_left].
  change (fold_left _ ops ?x) with (perform_all ops x).
  rewrite IH; [exact Hk| rewrite Hk; exact Hf | exact Hq].
Qed.

(** ** The scenarios of the repository's tests *)

Example returns_to_the_prior_state {R : Realm} :
  let m1 := perform_all [op_initialState "state1" []; op_enterState "state2" []]
                        plain_fsm in
  let m2 := perform (op_exitState []) m1 in
  let m3 := perform_all [op_enterState "state2" []; op_enterState "state3" []]
                        m2 in
  let m4 := perform (op_exitState []) m3 in
  let m5 := perform (op_exitState []) m4 in
  previousStates m1 = [mkPreviousState "state1" []]
  /\ previousStates m2 = [] /\ currentStateName m2 = "state1"
  /\ previousStates m3
     = [mkPreviousState "state1" []; mkPreviousState "state2" []]
  /\ previousStates m4 = [mkPreviousState "state1" []]
  /\ currentStateName m4 = "state2"
  /\ previousStates m5 = [] /\ currentStateName m5 = "state1".
Proof. vm_compute. repeat split; reflexivity. Qed.

Example resets_history_on_initial_state {R : Realm} :
  let m1 := perform_all [op_initialState "state1" []; op_enterState "state2" [];
                         op_enterState "state3" []; op_enterState "state4" []]
                        plain_fsm in
  let m2 := perform (op_exitState []) m1 in
  let m3 := perform (op_enterState "state1" []) m2 in
  previousStates m1
  = [mkPreviousState "state1" []; mkPreviousState "state2" [];
     mkPreviousState "state3" []]
  /\ previousStates m2
     = [mkPreviousState "state1" []; mkPreviousState "state2" []]
  /\ currentStateName m2 = "state3"
  /\ previousStates m3 = [].
Proof. vm_compute. repeat split; reflexivity. Qed.

Example throws_without_a_state_to_exit_to {R : Realm} :
  let m := perform_all [op_initialState "state1" []; op_enterState "state2" [];
                        op_exitState []] plain_fsm in
  outcome (exec (exitState []) m [])
  = Rejected (VErr PlainError "No previous state to transition to").
Proof. vm_compute. reflexivity. Qed.

(** * The claims *)

(** C1.  Transition requests are not serialized.  The queue never holds
    a request across a suspension: a call of [enterState] made while an
    earlier call is suspended dequeues its own request and starts it at
    once, and [_transitioning], which the first call set, is not read.
    On the states of the repository's test, called without waiting, the
    [exit] of [state2] is invoked while the [enter] of [state2] is still
    pending.  On [abc_fsm] two requests made back to back interleave, and
    when the second one's [exit] settles first the machine ends in [b],
    the target of the first request, with [c] in its history; a host
    that awaits each call ends in [c]. *)
Theorem unawaited_calls_interleave {R : Realm} :
  (let w1 := run (firstn 2 unawaited_test) (boot test_fsm) in
   let w2 := run unawaited_test (boot test_fsm) in
   map fst (pool w1) = [1]
   /\ _transitioning (machine w1) = true
   /\ timeline w2
      = [(0, Completed (Fulfilled VUndefined));
         (1, Invoked (enter_of "state2") []);
         (2, Invoked (exit_of "state2") [])]
   /\ map fst (pool w2) = [1; 2]
   /\ _transitionQueue (machine w2) = [])
  /\ (let w := run racing_abc (boot abc_fsm) in
      calls_of (timeline w) = [0; 1; 2; 2; 2; 1; 1]
      /\ serialized (calls_of (timeline w)) = false
      /\ currentStateName (machine w) = "b"
      /\ previousStates (machine w)
         = [mkPreviousState "a" []; mkPreviousState "c" []]
      /\ pool w = [])
  /\ (let m := perform_all awaited_abc abc_fsm in
      currentStateName m = "c"
      /\ previousStates m = [mkPreviousState "a" []; mkPreviousState "b" []]).
Proof. vm_compute. repeat split; reflexivity. Qed.

(** C2.  The error a transition check resolves to is the result of the
    queued request and not of the call: on the example of the
    documentation of [defineTransition], with nothing else queued, the
    request from [idle] to [moving] returns the error of the check and
    the promise of [enterState] fulfils with [undefined]. *)
Theorem guard_error_is_dropped {R : Realm} :
  currentStateName idle_fsm = "idle"
  /\ _transitionQueue idle_fsm = []
  /\ ok_or_error [VBool true] = Fulfils (VErr PlainError "Some error")
  /\ exec (func (mkTransitionPromise "moving" forward [VBool true])) idle_fsm []
     = (Fulfilled (VErr PlainError "Some error"), idle_fsm,
        [Invoke (transitionCheck_of "idle" "moving") [VBool true]])
  /\ outcome (exec (enterState "moving" [VBool true]) idle_fsm [])
     = Fulfilled VUndefined
  /\ instanceof_Error VUndefined = false.
Proof. vm_compute. repeat split; reflexivity. Qed.

(** C3.  A refused [exitState] loses the entry it popped.  From
    [moving], with [idle] on the history and a check from [moving] to
    [idle] that resolves to an error, [exitState()] leaves the current
    state name unchanged and the history empty.  A refused [enterState]
    changes neither. *)
Theorem refused_exit_loses_history {R : Realm} :
  currentStateName moved_fsm = "moving"
  /\ previousStates moved_fsm = [mkPreviousState "idle" [VStr "ok"]]
  /\ _transitionQueue moved_fsm = []
  /\ refuses [VStr "ok"] = Fulfils (VErr PlainError "Not now")
  /\ (let x := exec (exitState []) moved_fsm [] in
      trace x = [Invoke (transitionCheck_of "moving" "idle") [VStr "ok"]]
      /\ outcome x = Fulfilled VUndefined
      /\ currentStateName (after x) = "moving"
      /\ previousStates (after x) = [])
  /\ (let x := exec (enterState "moving" [VBool true]) idle_fsm [] in
      currentStateName (after x) = currentStateName idle_fsm
      /\ previousStates (after x) = previousStates idle_fsm).
Proof. vm_compute. repeat split; reflexivity. Qed.

(** [initialState(stateName, ...rest)] rejects, and changes nothing,
    when [getState] finds nothing under [stateName].  When it finds a
    state object, the initial and the current state name become
    [stateName], the history becomes empty, and the call settles as
    [enter(...rest)] does when the object has an [enter], with
    [undefined] otherwise; [enter] is the only callback invoked, so no
    transition check is evaluated. *)
Lemma initialState_settles stateName rest m tr :
  (getState stateName m = None ->
   exec (initialState stateName rest) m tr
   = (Rejected (VErr PlainError (initialState_message stateName)), m, tr))
  /\ (forall newStateObj, getState stateName m = Some newStateObj ->
      let x := exec (initialState stateName rest) m tr in
      initialStateName (after x) = stateName
      /\ currentStateName (after x) = stateName
      /\ previousStates (after x) = []
      /\ match newStateObj !! "enter" with
         | Some enter =>
             outcome x = settlement (enter rest)
             /\ trace x = tr ++ [Invoke (enter_of stateName) rest]
         | None => outcome x = Fulfilled VUndefined /\ trace x = tr
         end).
Proof.
  split.
  - intros H. unfold initialState. cbn [exec bind this]. rewrite H. reflexivity.
  - intros newStateObj H. apply initialState_body, H.
Qed.

(** [getState] finds a state object under every member name of
    [Object.prototype], registered or not, and [initialState] takes it
    for a state without callbacks. *)
Lemma initialState_inherited_name stateName rest m tr :
  _states m !! stateName = None ->
  inherited stateName = true ->
  getState stateName m = Some (Builtin stateName)
  /\ exec (initialState stateName rest) m tr
     = (Fulfilled VUndefined,
        set_previousStates []
          (set_currentStateName stateName
             (set_initialStateName stateName m)),
        tr).
Proof.
  intros Hown Hin.
  assert (Hget : getState stateName m = Some (Builtin stateName)).
  { unfold getState, lookup_state. rewrite Hown, Hin. reflexivity. }
  split; [exact Hget|].
  unfold initialState. cbn [exec bind this]. rewrite Hget. reflexivity.
Qed.

(** C4.  [initialState] does not reject every name without a registered
    definition.  On a machine on which nothing was registered, a name
    such as [nowhere] is rejected, but [toString] is not:
    [this._states[stateName]] finds the function every object inherits,
    the call fulfils with [undefined], and [toString] is the initial and
    the current state name.  With a registered name the call does what
    the claim says: on [test_fsm], [initialState("state2", 7)] sets both
    names, empties the history, and settles as the one callback it
    invokes, [enter(7)], does. *)
Theorem initialState_accepts_inherited_name :
  _states new_FiniteStateMachine !! "toString" = None
  /\ exec (initialState "nowhere" []) new_FiniteStateMachine []
     = (Rejected (VErr PlainError (initialState_message "nowhere")),
        new_FiniteStateMachine, [])
  /\ (let x := exec (initialState "toString" []) new_FiniteStateMachine [] in
      outcome x = Fulfilled VUndefined
      /\ initialStateName (after x) = "toString"
      /\ currentStateName (after x) = "toString"
      /\ _states (after x) = ∅
      /\ trace x = [])
  /\ (let x := exec (initialState "state2" [VNum 7]) test_fsm [] in
      getState "state2" test_fsm = Some (Defined timed)
      /\ initialStateName (after x) = "state2"
      /\ currentStateName (after x) = "state2"
      /\ previousStates (after x) = []
      /\ outcome x = settlement (resolves_later [VNum 7])
      /\ trace x = [Invoke (enter_of "state2") [VNum 7]]).
Proof.
  split; [reflexivity|]. split.
  - apply (proj1 (initialState_settles "nowhere" [] new_FiniteStateMachine [])).
    reflexivity.
  - split.
    + destruct (initialState_inherited_name "toString" []
                  new_FiniteStateMachine [] eq_refl eq_refl) as [_ ->].
      repeat split; reflexivity.
    + assert (H : getState "state2" test_fsm = Some (Defined timed))
        by reflexivity.
      split; [exact H|].
      apply (proj2 (initialState_settles "state2" [VNum 7] test_fsm []) _ H).
Qed.

(** C5.  With a non-empty history and nothing else queued,
    [exitState(...rest)] removes the last history entry, and that one
    only, and runs a request for the state the entry names.  The
    callbacks of the request receive [rest] when the caller gave any
    argument and the [args] of the entry otherwise: the call invokes
    the check of the pair when there is one, then, unless the check
    stopped the request, the [exit] of the current state when it has
    one, then, unless the [exit] stopped it, the [enter] of the target
    when it has one, each with these arguments and nothing else.  When
    neither the check nor the [exit] stopped the request, the current
    state name is the name of the entry and the history is the popped
    one, or empty when the target is the initial state; otherwise the
    current state name is unchanged and the history is the popped one.
    When the entry names the current state itself the request does
    nothing: no callback is invoked and only the entry is gone. *)
Theorem exitState_pops_one {R : Realm} rest entry currentStateObj newStateObj
    m tr :
  _transitionQueue m = [] ->
  last (_previousStates m) = Some entry ->
  getState (currentStateName m) m = Some currentStateObj ->
  getState (name entry) m = Some newStateObj ->
  let dataArgs :=
    match rest with
    | [] => args entry
    | _ :: _ => rest
    end in
  let check := transitionCheckOf (currentStateName m) (name entry) m in
  let exit := currentStateObj !! "exit" in
  let enter := newStateObj !! "enter" in
  let x := exec (exitState rest) m tr in
  previousStates m = removelast (previousStates m) ++ [entry]
  /\ if String.eqb (name entry) (currentStateName m)
     then
       x = (Fulfilled VUndefined,
            set_transitioning false
              (set_previousStates (removelast (_previousStates m)) m),
            tr)
     else
       trace x
       = tr ++ invoked (transitionCheck_of (currentStateName m) (name entry))
                       check dataArgs
            ++ match stops check dataArgs with
               | Some _ => []
               | None =>
                   invoked (exit_of (currentStateName m)) exit dataArgs
                   ++ match stops exit dataArgs with
                      | Some _ => []
                      | None => invoked (enter_of (name entry)) enter dataArgs
                      end
               end
       /\ match stops check dataArgs, stops exit dataArgs with
          | None, None =>
              currentStateName (after x) = name entry
              /\ previousStates (after x)
                 = (if String.eqb (name entry) (initialStateName m) then []
                    else removelast (previousStates m))
          | _, _ =>
              currentStateName (after x) = currentStateName m
              /\ previousStates (after x) = removelast (previousStates m)
          end.
Proof.
  intros Hq Hl Hc Hn. cbn zeta.
  change (match rest with [] => args entry | _ :: _ => rest end)
    with (dataArgs_of rest entry).
  split.
  { unfold previousStates. apply last_Some in Hl as [l' Hl]. rewrite Hl.
    rewrite removelast_last. reflexivity. }
  rewrite (exec_exitState _ _ _ _ Hq Hl).
  destruct (String.eqb (name entry) (currentStateName m)) eqn:Hsame.
  { apply String.eqb_eq in Hsame.
    rewrite request_for_current_state by exact Hsame. reflexivity. }
  apply String.eqb_neq in Hsame.
  match goal with |- context [drained ?y] =>
    destruct (drained_fields y) as (-> & -> & _ & ->) end.
  destruct (request_result
              (mkTransitionPromise (name entry) backward (dataArgs_of rest entry))
              currentStateObj newStateObj
              (set_transitioning true
                 (set_previousStates (removelast (_previousStates m)) m))
              tr Hsame Hc Hn) as (Ht & _ & Hm).
  split; [exact Ht|].
  cbn [tp_rest tp_newStateName tp_direction] in Hm.
  change (transitionCheckOf
            (currentStateName
               (set_transitioning true
                  (set_previousStates (removelast (_previousStates m)) m)))
            (name entry)
            (set_transitioning true
               (set_previousStates (removelast (_previousStates m)) m)))
    with (transitionCheckOf (currentStateName m) (name entry) m) in Hm.
  destruct (stops (transitionCheckOf (currentStateName m) (name entry) m) _);
    [rewrite Hm; split; reflexivity|].
  destruct (stops (currentStateObj !! "exit") _);
    [rewrite Hm; split; reflexivity|].
  exact Hm.
Qed.

Lemma exitState_pops_one_witness :
  _transitionQueue entered_fsm = []
  /\ previousStates entered_fsm = [mkPreviousState "state1" [VNum 1]]
  /\ currentStateName entered_fsm = "state2"
  /\ (let x := exec (exitState []) entered_fsm [] in
      trace x = [Invoke (exit_of "state2") [VNum 1]]
      /\ currentStateName (after x) = "state1"
      /\ previousStates (after x) = [])
  /\ (let x := exec (exitState [VStr "now"]) entered_fsm [] in
      trace x = [Invoke (exit_of "state2") [VStr "now"]]).
Proof.
  assert (Hq : _transitionQueue entered_fsm = []) by reflexivity.
  assert (Hl : last (_previousStates entered_fsm)
               = Some (mkPreviousState "state1" [VNum 1])) by reflexivity.
  split; [exact Hq|]. split; [reflexivity|]. split; [reflexivity|].
  split.
  - destruct (exitState_pops_one [] _ (Defined timed) (Defined ∅) entered_fsm []
                Hq Hl eq_refl eq_refl) as (_ & Ht & Hm).
    split; [exact Ht|exact Hm].
  - destruct (exitState_pops_one [VStr "now"] _ (Defined timed) (Defined ∅)
                entered_fsm [] Hq Hl eq_refl eq_refl) as (_ & Ht & _).
    exact Ht.
Defined.

(** C6.  With an empty history, [exitState] rejects with the message
    [No previous state to transition to] and leaves every field of the
    machine as it was, the current state name, the history and the queue
    among them; no callback is invoked.  The same holds for a call that
    is not awaited. *)
Theorem exitState_without_history {R : Realm} rest m tr :
  _previousStates m = [] ->
  exec (exitState rest) m tr
  = (Rejected (VErr PlainError "No previous state to transition to"), m, tr)
  /\ start (exitState rest) m
     = (m, inl (Rejected (VErr PlainError "No previous state to transition to"))).
Proof.
  intros H. unfold exitState. cbn [exec start bind this]. rewrite H.
  split; reflexivity.
Qed.

Lemma exitState_without_history_witness :
  _previousStates test_fsm = []
  /\ exec (exitState [VNum 1]) test_fsm []
     = (Rejected (VErr PlainError "No previous state to transition to"),
        test_fsm, []).
Proof.
  assert (H : _previousStates test_fsm = []) by reflexivity.
  split; [exact H|].
  exact (proj1 (exitState_without_history [VNum 1] test_fsm [] H)).
Defined.

(** C7.  The history is empty whenever the current state becomes the
    initial one: after a successful [initialState]; in [goToNextState],
    as soon as the current state name is assigned, when the target is
    the initial state name; after any queued request, forward or
    backward, that changed the current state to the initial one; and
    after an awaited [enterState] or [exitState] that did. *)
Theorem history_cleared_on_initial {R : Realm} :
  (forall stateName rest m tr,
      is_Some (getState stateName m) ->
      let m' := after (exec (initialState stateName rest) m tr) in
      currentStateName m' = initialStateName m' /\ previousStates m' = [])
  /\ (forall newStateName newStateObj dir rest m,
      newStateName = initialStateName m ->
      let m' := (start (goToNextState newStateName newStateObj dir rest) m).1 in
      currentStateName m' = newStateName /\ previousStates m' = [])
  /\ (forall tp m tr,
      let m' := after (exec (func tp) m tr) in
      currentStateName m' <> currentStateName m ->
      currentStateName m' = initialStateName m' ->
      previousStates m' = [])
  /\ (forall newStateName rest m tr,
      _transitionQueue m = [] ->
      let m' := after (exec (enterState newStateName rest) m tr) in
      currentStateName m' <> currentStateName m ->
      currentStateName m' = initialStateName m' ->
      previousStates m' = [])
  /\ (forall rest m tr,
      _transitionQueue m = [] ->
      let m' := after (exec (exitState rest) m tr) in
      currentStateName m' <> currentStateName m ->
      currentStateName m' = initialStateName m' ->
      previousStates m' = []).
Proof.
  split; [|split; [|split; [|split]]].
  - intros stateName rest m tr [newStateObj H].
    destruct (initialState_body stateName rest newStateObj m tr H)
      as (Hi & Hc & Hp & _).
    cbn zeta. rewrite Hi, Hc, Hp. split; reflexivity.
  - apply goToNextState_clears.
  - apply func_history_cleared.
  - intros newStateName rest m tr Hq. cbn zeta.
    rewrite (exec_enterState _ _ _ _ Hq).
    destruct (drained_fields
                (exec (func (mkTransitionPromise newStateName forward rest))
                      (set_transitioning true m) tr)) as (-> & -> & -> & _).
    apply (func_history_cleared _ (set_transitioning true m)).
  - intros rest m tr Hq. cbn zeta.
    destruct (last (_previousStates m)) as [entry|] eqn:Hl.
    + rewrite (exec_exitState _ _ _ _ Hq Hl).
      match goal with |- context [drained ?y] =>
        destruct (drained_fields y) as (-> & -> & -> & _) end.
      apply (func_history_cleared _
               (set_transitioning true
                  (set_previousStates (removelast (_previousStates m)) m))).
    + unfold exitState. cbn [exec bind this]. rewrite Hl. cbn.
      intros Hne; exfalso; apply Hne; reflexivity.
Qed.

Lemma history_cleared_on_initial_witness :
  _transitionQueue entered_fsm = []
  /\ previousStates entered_fsm = [mkPreviousState "state1" [VNum 1]]
  /\ initialStateName entered_fsm = "state1"
  /\ (let m' := after (exec (enterState "state1" []) entered_fsm []) in
      currentStateName m' = "state1" /\ previousStates m' = []).
Proof.
  assert (Hq : _transitionQueue entered_fsm = []) by reflexivity.
  split; [exact Hq|]. split; [reflexivity|]. split; [reflexivity|].
  split; [reflexivity|].
  apply (proj1 (proj2 (proj2 (proj2 history_cleared_on_initial)))
           "state1" [] entered_fsm [] Hq).
  - vm_compute. discriminate.
  - reflexivity.
Defined.

(** C8, as amended.  On a fresh machine, when the name passed to the
    first [defineState] call is not the empty string, that name is the
    value of [initialStateName()] after any further [defineState] calls,
    and it stays so through every later sequence of public operations
    in which no [initialState] call succeeds. *)
Theorem first_defined_state_is_initial {R : Realm} first definition calls :
  first <> EmptyString ->
  let m :=
    defineStates ((first, definition) :: calls) new_FiniteStateMachine in
  initialStateName m = first
  /\ (forall ops,
        no_successful_initialState ops m = true ->
        initialStateName (perform_all ops m) = first).
Proof.
  intros Hne m.
  assert (Hm : _initialStateName m = first).
  { unfold m. cbn [defineStates fold_left fst snd].
    change (fold_left _ calls ?x) with (defineStates calls x).
    rewrite defineStates_initial_kept; cbn; [reflexivity|].
    apply falsy_false, Hne. }
  split; [exact Hm|].
  intros ops Hq. unfold initialStateName.
  rewrite perform_all_initial_kept; [exact Hm| |exact Hq].
  rewrite Hm. apply falsy_false, Hne.
Qed.

Lemma first_defined_state_is_initial_witness :
  "state1" <> EmptyString
  /\ (let m :=
        defineStates [("state1", None); ("state2", Some timed);
                      ("state3", Some timed)] new_FiniteStateMachine in
      initialStateName m = "state1"
      /\ initialStateName
           (perform_all [op_enterState "state2" [];
                         op_defineState "state4" None;
                         op_initialState "nowhere" [];
                         op_exitState []] m)
         = "state1").
Proof.
  assert (Hne : "state1" <> EmptyString) by discriminate.
  split; [exact Hne|].
  destruct (first_defined_state_is_initial "state1" None
              [("state2", Some timed); ("state3", Some timed)] Hne)
    as [Hm Hops].
  split; [exact Hm|]. apply Hops. reflexivity.
Defined.

(** C8, as stated, fails when the first name is the empty string: the
    machine takes the empty initial state name for no initial state, and
    the next [defineState] call replaces it. *)
Lemma empty_first_name_is_replaced :
  initialStateName (defineStates [(EmptyString, None)] new_FiniteStateMachine)
  = EmptyString
  /\ initialStateName
       (defineStates [(EmptyString, None); ("a", None)] new_FiniteStateMachine)
     = "a"
  /\ "a" <> EmptyString.
Proof. split; [reflexivity|split; [reflexivity|discriminate]]. Qed.

(** C9.  A forward request whose check (if any) and whose [exit] (if
    any) resolve to values that are not errors, and whose target's
    [enter] resolves to an error, is not rolled back: the error is the
    request's result, the current state name is the target, and the
    history holds the entry pushed for the state that was left, or is
    empty when the target is the initial state.  The same state is
    reached by the awaited [enterState] call. *)
Theorem enter_error_not_rolled_back {R : Realm} newStateName rest currentStateObj
    newStateObj enter e m tr :
  newStateName <> currentStateName m ->
  getState (currentStateName m) m = Some currentStateObj ->
  getState newStateName m = Some newStateObj ->
  (forall check,
      transitionCheckOf (currentStateName m) newStateName m = Some check ->
      exists v, check rest = Fulfils v /\ instanceof_Error v = false) ->
  (forall exit,
      currentStateObj !! "exit" = Some exit ->
      exists v, exit rest = Fulfils v /\ instanceof_Error v = false) ->
  newStateObj !! "enter" = Some enter ->
  enter rest = Fulfils e ->
  instanceof_Error e = true ->
  let request := mkTransitionPromise newStateName forward rest in
  let kept :=
    if String.eqb newStateName (initialStateName m) then []
    else previousStates m ++ [mkPreviousState (currentStateName m) rest] in
  (let y := exec (func request) m tr in
   outcome y = Fulfilled e
   /\ currentStateName (after y) = newStateName
   /\ previousStates (after y) = kept)
  /\ (_transitionQueue m = [] ->
      let x := exec (enterState newStateName rest) m tr in
      currentStateName (after x) = newStateName
      /\ previousStates (after x) = kept).
Proof.
  intros Hne Hc Hn Hg He Henter Hres Herr request kept.
  pose proof (forward_request_with_enter newStateName rest currentStateObj
                newStateObj enter) as Hreq.
  split.
  - destruct (Hreq m tr Hne Hc Hn Hg He Henter) as (Ho & Hcur & Hprev).
    rewrite Hres in Ho. repeat split; assumption.
  - intros Hq. cbn zeta. rewrite (exec_enterState _ _ _ _ Hq).
    match goal with |- context [drained ?y] =>
      destruct (drained_fields y) as (-> & -> & _) end.
    destruct (Hreq (set_transitioning true m) tr Hne Hc Hn Hg He Henter)
      as (_ & Hcur & Hprev).
    split; assumption.
Qed.

Lemma enter_error_not_rolled_back_witness :
  currentStateName stubborn_fsm = "a"
  /\ enter_fails [VNum 3] = Fulfils (VErr PlainError "cannot enter")
  /\ (let y := exec (func (mkTransitionPromise "b" forward [VNum 3]))
                    stubborn_fsm [] in
      outcome y = Fulfilled (VErr PlainError "cannot enter")
      /\ currentStateName (after y) = "b"
      /\ previousStates (after y) = [mkPreviousState "a" [VNum 3]]).
Proof.
  split; [reflexivity|]. split; [reflexivity|].
  refine (proj1 (enter_error_not_rolled_back "b" [VNum 3] (Defined ∅)
                   (Defined (<["enter" := enter_fails]> ∅)) enter_fails
                   (VErr PlainError "cannot enter") stubborn_fsm []
                   _ _ _ _ _ _ _ _)).
  - discriminate.
  - reflexivity.
  - reflexivity.
  - intros check H. discriminate H.
  - intros exit H. discriminate H.
  - reflexivity.
  - reflexivity.
  - reflexivity.
Defined.

(** C10, as amended.  When [getState] finds nothing under the current
    state name, [raiseEvent] does not resolve with [undefined].  Without
    a [beforeAll] handler of the event the call is rejected at once,
    with the [TypeError] of the property read on the missing object.
    With one, the call invokes the handler; when the handler rejects,
    the call rejects with the handler's reason; when it fulfils, the
    call is rejected with the [TypeError].  That is the outcome of an
    awaited call whose handler leaves the machine alone.  In general
    the call waits for the handler the host defined (under an event
    name that is no member name of [Object.prototype]) and, when the
    handler has fulfilled, is resumed in the machine as it then is: it
    is rejected with the [TypeError] if [getState] still finds nothing
    under the name that is then the current one. *)
Theorem raiseEvent_without_current_state {R : Realm} eventName rest m :
  getState (currentStateName m) m = None ->
  let thrown := VErr TypeError (raiseEvent_message eventName) in
  match handlerOf "beforeAll" eventName m with
  | None =>
      start (raiseEvent eventName rest) m = (m, inl (Rejected thrown))
      /\ forall tr,
           exec (raiseEvent eventName rest) m tr = (Rejected thrown, m, tr)
  | Some h =>
      (inherited eventName = false ->
       exists s,
         start (raiseEvent eventName rest) m = (m, inr (rest, s))
         /\ waits_on s = handler_of "beforeAll" eventName
         /\ will_settle s = h rest
         /\ forall v m',
              getState (currentStateName m') m' = None ->
              start (resume s v) m' = (m', inl (Rejected thrown)))
      /\ forall tr,
           exec (raiseEvent eventName rest) m tr
           = (match h rest with
              | Fulfils _ => Rejected thrown
              | Rejects e => Rejected e
              end,
              m, tr ++ [Invoke (handler_of "beforeAll" eventName) rest])
  end.
Proof.
  unfold currentStateName. intros Hc. cbn zeta. unfold raiseEvent.
  destruct (handlerOf "beforeAll" eventName m) as [h|] eqn:Hb.
  - split.
    + intros _. eexists. cbn [start bind this]. rewrite Hb.
      cbn [start bind await].
      split; [reflexivity|]. split; [reflexivity|]. split; [reflexivity|].
      intros v m' Hm'. cbn [resume start bind this]. rewrite Hm'. reflexivity.
    + intros tr. cbn [exec bind this]. rewrite Hb. cbn [exec bind await].
      destruct (h rest); [|reflexivity].
      cbn [exec bind this]. rewrite Hc. reflexivity.
  - split; [|intros tr]; cbn [start exec bind this]; rewrite Hb;
      cbn [start exec bind this]; rewrite Hc; reflexivity.
Qed.

Lemma raiseEvent_without_current_state_witness :
  getState (currentStateName test_fsm) test_fsm = None
  /\ start (raiseEvent "ping" [VNum 1]) test_fsm
     = (test_fsm, inl (Rejected (VErr TypeError (raiseEvent_message "ping"))))
  /\ outcome (exec (raiseEvent "ping" [VNum 1]) test_fsm [])
     = Rejected (VErr TypeError (raiseEvent_message "ping")).
Proof.
  assert (H : getState (currentStateName test_fsm) test_fsm = None)
    by reflexivity.
  split; [exact H|].
  destruct (raiseEvent_without_current_state "ping" [VNum 1] test_fsm H)
    as [Hstart Hexec].
  split; [exact Hstart|]. rewrite Hexec. reflexivity.
Defined.

(** C10, as stated, fails when a [beforeAll] handler of the event
    rejects: the promise rejects with the handler's reason, which is no
    [TypeError], and the current state's definition is never read. *)
Lemma raiseEvent_rejects_before_lookup :
  getState (currentStateName hooked_fsm) hooked_fsm = None
  /\ outcome (exec (raiseEvent "ping" []) hooked_fsm [])
     = Rejected (VErr PlainError "boom")
  /\ VErr PlainError "boom" <> VErr TypeError (raiseEvent_message "ping").
Proof. split; [reflexivity|split; [vm_compute; reflexivity|discriminate]]. Qed.

(** The condition on the machine at the time the handler fulfils is
    needed: when [initialState] is called while the handler is pending,
    the call that started without a current state fulfils. *)
Example raiseEvent_after_late_initialState {R : Realm} :
  getState (currentStateName waiting_fsm) waiting_fsm = None
  /\ timeline (run late_start (boot waiting_fsm))
     = [(0, Invoked (handler_of "beforeAll" "ping") []);
        (1, Completed (Fulfilled VUndefined));
        (0, Settled (handler_of "beforeAll" "ping") (Fulfils VUndefined));
        (0, Completed (Fulfilled VUndefined))].
Proof. split; [reflexivity|vm_compute; reflexivity]. Qed.

(** * Further properties of the code *)

(** ** The registries *)

Lemma falsy_true s : falsy s = true <-> s = EmptyString.
Proof. destruct s; cbn; split; congruence. Qed.

Lemma getState_defineState stateName definition m :
  getState stateName (defineState stateName definition m)
  = Some (Defined (default ∅ definition))
  /\ (forall other, other <> stateName ->
        getState other (defineState stateName definition m) = getState other m).
Proof.
  unfold defineState, getState, lookup_state.
  destruct (falsy _); cbn; rewrite lookup_insert_eq; (split; [reflexivity|]);
    intros other Hne; rewrite lookup_insert_ne by congruence; reflexivity.
Qed.

(** X1.  [defineState(name, definition)] registers the definition (the
    empty object when none is given) under [name], replacing an earlier
    one, and leaves the definition of every other name, the transition
    checks, the current state name, the history, the queue and the data
    bag as they were. *)
Theorem defineState_getState stateName definition m :
  let m' := defineState stateName definition m in
  getState stateName m' = Some (Defined (default ∅ definition))
  /\ (forall other, other <> stateName -> getState other m' = getState other m)
  /\ _transitions m' = _transitions m
  /\ _currentStateName m' = _currentStateName m
  /\ _previousStates m' = _previousStates m
  /\ _transitionQueue m' = _transitionQueue m
  /\ _data m' = _data m.
Proof.
  unfold defineState, getState, lookup_state.
  destruct (falsy _); cbn; rewrite lookup_insert_eq; (split; [reflexivity|]);
    (split; [intros other Hne; rewrite lookup_insert_ne by congruence;
             reflexivity|]);
    repeat split; reflexivity.
Qed.

(** X2.  [defineTransition(fromState, toState, transitionCheck)] returns
    [false] exactly when the check is missing or one of the two names is
    the empty string.  Otherwise the check of the pair is the one given,
    and the states need not be registered: the state registry, the
    initial and current state names and the history are untouched.  The
    check of another pair is unchanged, except for the targets of the
    same [fromState] that are member names of [Object.prototype]: the
    first check defined from [fromState] creates the object the checks
    are read from, and from then on the built-in it inherits under such
    a name is found as the check of that pair. *)
Theorem defineTransition_lookup {R : Realm} fromState toState transitionCheck m :
  (defineTransition fromState toState transitionCheck m = None
   <-> transitionCheck = None \/ fromState = EmptyString
       \/ toState = EmptyString)
  /\ (forall m', defineTransition fromState toState transitionCheck m = Some m' ->
      transitionCheckOf fromState toState m' = transitionCheck
      /\ (forall f t, (f, t) <> (fromState, toState) ->
            f <> fromState \/ inherited t = false
            \/ inherited fromState = true ->
            transitionCheckOf f t m' = transitionCheckOf f t m)
      /\ (forall check t,
            transitionCheck = Some check ->
            _transitions m !! fromState = None ->
            inherited fromState = false ->
            inherited t = true -> t <> toState ->
            transitionCheckOf fromState t m = None
            /\ transitionCheckOf fromState t m'
               = Some (native (Some (<[toState := check]> ∅)) t))
      /\ _states m' = _states m
      /\ _initialStateName m' = _initialStateName m
      /\ _currentStateName m' = _currentStateName m
      /\ _previousStates m' = _previousStates m).
Proof.
  unfold defineTransition. split.
  - destruct transitionCheck as [check|]; [|tauto].
    destruct (falsy fromState) eqn:Hf; cbn [orb].
    + apply falsy_true in Hf. tauto.
    + destruct (falsy toState) eqn:Ht.
      * apply falsy_true in Ht. tauto.
      * split; [discriminate|]. intros [H|[H|H]]; [discriminate| |].
        -- apply falsy_true in H. congruence.
        -- apply falsy_true in H. congruence.
  - intros m' H. destruct transitionCheck as [check|]; [|discriminate].
    destruct (falsy fromState || falsy toState); [discriminate|].
    injection H as <-. unfold transitionCheckOf, lookup_check.
    cbn [_transitions set_transitions].
    split; [|split; [|split; [|repeat split]]].
    + rewrite lookup_insert_eq, lookup_insert_eq. reflexivity.
    + intros f t Hne Hside. destruct (decide (f = fromState)) as [->|Hf].
      * assert (Ht : t <> toState) by congruence.
        rewrite lookup_insert_eq, lookup_insert_ne by congruence.
        destruct (_transitions m !! fromState) as [inner|];
          cbn [default from_option id].
        -- destruct (inner !! t); [reflexivity|].
           destruct (inherited fromState); [reflexivity|].
           destruct Hside as [Hside|[Hside|Hside]]; try congruence.
           rewrite Hside. reflexivity.
        -- rewrite lookup_empty.
           destruct (inherited fromState); [reflexivity|].
           destruct Hside as [Hside|[Hside|Hside]]; try congruence.
           rewrite Hside. reflexivity.
      * rewrite lookup_insert_ne by congruence. reflexivity.
    + intros check' t [= <-] Hnone Hfrom Ht Hne.
      rewrite Hnone, Hfrom. split; [reflexivity|].
      rewrite lookup_insert_eq. cbn [default from_option id].
      rewrite lookup_insert_ne by congruence.
      rewrite lookup_empty, Ht. reflexivity.
Qed.


(** ** The paths of a transition request *)

(** X4.  A request for the state the machine is in does nothing: it
    resolves with [undefined], invokes no callback, not even a check
    registered for the pair, and changes no field.  The awaited
    [enterState] of the current state only clears [_transitioning]. *)
Theorem same_state_is_noop {R : Realm} tp rest m tr :
  tp_newStateName tp = currentStateName m ->
  exec (func tp) m tr = (Fulfilled VUndefined, m, tr)
  /\ (_transitionQueue m = [] ->
      exec (enterState (currentStateName m) rest) m tr
      = (Fulfilled VUndefined, set_transitioning false m, tr)).
Proof.
  intros H. unfold currentStateName in *.
  assert (Hreq : forall tp' m', tp_newStateName tp' = _currentStateName m' ->
            exec (func tp') m' tr = (Fulfilled VUndefined, m', tr)).
  { intros tp' m' H'. unfold func. cbn [exec bind this]. rewrite H'.
    rewrite String.eqb_refl. reflexivity. }
  split; [apply Hreq, H|].
  intros Hq. rewrite (exec_enterState _ _ _ _ Hq).
  rewrite Hreq by reflexivity. reflexivity.
Qed.

Lemma same_state_is_noop_witness :
  currentStateName idle_fsm = "idle"
  /\ transitionCheckOf "idle" "moving" idle_fsm = Some ok_or_error
  /\ exec (func (mkTransitionPromise "idle" backward [VNum 1])) idle_fsm []
     = (Fulfilled VUndefined, idle_fsm, [])
  /\ exec (enterState "idle" [VNum 1]) idle_fsm []
     = (Fulfilled VUndefined, set_transitioning false idle_fsm, []).
Proof.
  split; [reflexivity|]. split; [reflexivity|].
  destruct (same_state_is_noop (mkTransitionPromise "idle" backward [VNum 1])
              [VNum 1] idle_fsm [] eq_refl) as [Hreq Hcall].
  split; [exact Hreq|]. exact (Hcall eq_refl).
Defined.

(** X5.  A request between two different states, under one of which
    [getState] finds nothing (a name that is neither registered nor a
    member name of [Object.prototype]), and whose check, if there is
    one for the pair, passes, resolves with an [Error] whose message
    names both states.  The check is the only callback invoked: it runs
    before the states are looked up.  No field of the machine
    changes. *)
Theorem undefined_state_is_refused {R : Realm} tp m tr :
  tp_newStateName tp <> currentStateName m ->
  getState (currentStateName m) m = None
  \/ getState (tp_newStateName tp) m = None ->
  passes (transitionCheckOf (currentStateName m) (tp_newStateName tp) m)
         (tp_rest tp) ->
  exec (func tp) m tr
  = (Fulfilled (VErr PlainError
                  (transitionStates_message (currentStateName m)
                                            (tp_newStateName tp))),
     m,
     tr ++ invoked (transitionCheck_of (currentStateName m) (tp_newStateName tp))
                   (transitionCheckOf (currentStateName m) (tp_newStateName tp) m)
                   (tp_rest tp)).
Proof.
  unfold passes, invoked, currentStateName. intros Hne Hmiss Hg.
  unfold_methods. run_body; simplify_eq; use_passes; simplify_eq;
    try congruence; try (destruct Hmiss; congruence);
    rewrite ?app_nil_r; reflexivity.
Qed.

Lemma undefined_state_is_refused_witness :
  getState "nowhere" idle_fsm = None
  /\ exec (func (mkTransitionPromise "nowhere" forward [])) idle_fsm []
     = (Fulfilled (VErr PlainError
                     (transitionStates_message "idle" "nowhere")),
        idle_fsm, []).
Proof.
  split; [reflexivity|].
  refine (undefined_state_is_refused
            (mkTransitionPromise "nowhere" forward []) idle_fsm [] _ _ _).
  - vm_compute. discriminate.
  - right. reflexivity.
  - by_lookup.
Defined.

(** X6.  When the [exit] callback of the current state resolves to an
    error, the request stops there: the error is its result, no field of
    the machine changes, and the [enter] of the target is not invoked
    (the trace ends with the [exit]). *)
Theorem exit_error_cancels {R : Realm} tp currentStateObj exit e m tr :
  tp_newStateName tp <> currentStateName m ->
  getState (currentStateName m) m = Some currentStateObj ->
  is_Some (getState (tp_newStateName tp) m) ->
  passes (transitionCheckOf (currentStateName m) (tp_newStateName tp) m)
         (tp_rest tp) ->
  currentStateObj !! "exit" = Some exit ->
  exit (tp_rest tp) = Fulfils e ->
  instanceof_Error e = true ->
  exec (func tp) m tr
  = (Fulfilled e, m,
     tr ++ invoked (transitionCheck_of (currentStateName m) (tp_newStateName tp))
                   (transitionCheckOf (currentStateName m) (tp_newStateName tp) m)
                   (tp_rest tp)
        ++ [Invoke (exit_of (currentStateName m)) (tp_rest tp)]).
Proof.
  unfold passes, invoked, currentStateName.
  intros Hne Hc [newStateObj Hn] Hg Hx He Herr.
  unfold_methods. run_body; simplify_eq; use_passes; simplify_eq;
    try congruence; rewrite <- ?app_assoc; merge_settled; reflexivity.
Qed.

Lemma exit_error_cancels_witness :
  currentStateName locked_fsm = "a"
  /\ exec (func (mkTransitionPromise "b" forward [VNum 1])) locked_fsm []
     = (Fulfilled (VErr PlainError "Not now"), locked_fsm,
        [Invoke (exit_of "a") [VNum 1]]).
Proof.
  split; [reflexivity|].
  refine (exit_error_cancels (mkTransitionPromise "b" forward [VNum 1])
            (Defined (<["exit" := refuses]> ∅)) refuses (VErr PlainError "Not now")
            locked_fsm [] _ _ _ _ _ _ _).
  - vm_compute. discriminate.
  - reflexivity.
  - eexists. reflexivity.
  - by_lookup.
  - reflexivity.
  - reflexivity.
  - reflexivity.
Defined.

(** The path of a request that goes through. *)
Lemma successful_request {R : Realm} tp currentStateObj newStateObj m tr :
  tp_newStateName tp <> currentStateName m ->
  getState (currentStateName m) m = Some currentStateObj ->
  getState (tp_newStateName tp) m = Some newStateObj ->
  passes (transitionCheckOf (currentStateName m) (tp_newStateName tp) m)
         (tp_rest tp) ->
  passes (currentStateObj !! "exit") (tp_rest tp) ->
  let y := exec (func tp) m tr in
  currentStateName (after y) = tp_newStateName tp
  /\ previousStates (after y)
     = (if String.eqb (tp_newStateName tp) (initialStateName m) then []
        else match tp_direction tp with
             | forward =>
                 previousStates m
                 ++ [mkPreviousState (currentStateName m) (tp_rest tp)]
             | backward => previousStates m
             end)
  /\ trace y
     = tr ++ invoked (transitionCheck_of (currentStateName m) (tp_newStateName tp))
                     (transitionCheckOf (currentStateName m) (tp_newStateName tp) m)
                     (tp_rest tp)
          ++ invoked (exit_of (currentStateName m)) (currentStateObj !! "exit")
                     (tp_rest tp)
          ++ invoked (enter_of (tp_newStateName tp)) (newStateObj !! "enter")
                     (tp_rest tp)
  /\ outcome y
     = match newStateObj !! "enter" with
       | Some enter => settlement (enter (tp_rest tp))
       | None => Fulfilled VUndefined
       end.
Proof.
  unfold passes, invoked, currentStateName, initialStateName, previousStates.
  intros Hne Hc Hn Hg Hx.
  unfold_methods. run_body; simplify_eq; use_passes; simplify_eq;
    try congruence.
  all: rewrite <- ?app_assoc, ?app_nil_r; cbn [app].
  all: repeat split; try reflexivity.
  all: try match goal with
           | H : ?f ?r = _ |- context [settlement (?f ?r)] =>
               rewrite H; reflexivity
           end.
Qed.

(** X7.  A request between two different registered states whose check
    and whose [exit], when present, pass, goes through.  The callbacks
    run in the order check, [exit] of the state left, [enter] of the
    target, each with the request's arguments and each only when it is
    defined.  The current state name becomes the target.  The history
    is emptied when the target is the initial state; otherwise a forward
    request appends the state left with the arguments, and a backward
    request leaves it as it is.  The request settles as [enter] does, or
    with [undefined] when the target has no [enter]. *)
Theorem transition_sequence {R : Realm} tp currentStateObj newStateObj m tr :
  tp_newStateName tp <> currentStateName m ->
  getState (currentStateName m) m = Some currentStateObj ->
  getState (tp_newStateName tp) m = Some newStateObj ->
  passes (transitionCheckOf (currentStateName m) (tp_newStateName tp) m)
         (tp_rest tp) ->
  passes (currentStateObj !! "exit") (tp_rest tp) ->
  let y := exec (func tp) m tr in
  currentStateName (after y) = tp_newStateName tp
  /\ previousStates (after y)
     = (if String.eqb (tp_newStateName tp) (initialStateName m) then []
        else match tp_direction tp with
             | forward =>
                 previousStates m
                 ++ [mkPreviousState (currentStateName m) (tp_rest tp)]
             | backward => previousStates m
             end)
  /\ trace y
     = tr ++ invoked (transitionCheck_of (currentStateName m) (tp_newStateName tp))
                     (transitionCheckOf (currentStateName m) (tp_newStateName tp) m)
                     (tp_rest tp)
          ++ invoked (exit_of (currentStateName m)) (currentStateObj !! "exit")
                     (tp_rest tp)
          ++ invoked (enter_of (tp_newStateName tp)) (newStateObj !! "enter")
                     (tp_rest tp)
  /\ outcome y
     = match newStateObj !! "enter" with
       | Some enter => settlement (enter (tp_rest tp))
       | None => Fulfilled VUndefined
       end.
Proof. apply successful_request. Qed.

Lemma transition_sequence_witness :
  currentStateName entered_fsm = "state2"
  /\ (let y := exec (func (mkTransitionPromise "state3" forward [VNum 2]))
                    entered_fsm [] in
      currentStateName (after y) = "state3"
      /\ previousStates (after y)
         = [mkPreviousState "state1" [VNum 1];
            mkPreviousState "state2" [VNum 2]]
      /\ trace y
         = [Invoke (exit_of "state2") [VNum 2];
            Invoke (enter_of "state3") [VNum 2]]
      /\ outcome y = Fulfilled VUndefined).
Proof.
  split; [reflexivity|].
  refine (transition_sequence (mkTransitionPromise "state3" forward [VNum 2])
            (Defined timed) (Defined timed) entered_fsm [] _ _ _ _ _).
  - vm_compute. discriminate.
  - reflexivity.
  - reflexivity.
  - by_lookup.
  - by_lookup.
Defined.

(** ** Transitions composed *)

Lemma drained_frame x :
  _states (after (drained x)) = _states (after x)
  /\ _transitions (after (drained x)) = _transitions (after x)
  /\ _transitionQueue (after (drained x)) = _transitionQueue (after x)
  /\ _data (after (drained x)) = _data (after x).
Proof. destruct x as [[[v|e|] m] tr]; repeat split; reflexivity. Qed.

Lemma enterState_frame {R : Realm} newStateName rest m tr :
  _transitionQueue m = [] ->
  let m1 := after (exec (enterState newStateName rest) m tr) in
  _states m1 = _states m /\ _transitions m1 = _transitions m
  /\ _initialStateName m1 = _initialStateName m
  /\ _transitionQueue m1 = [] /\ _data m1 = _data m.
Proof.
  intros Hq. cbn zeta. rewrite (exec_enterState _ _ _ _ Hq).
  match goal with |- context [drained ?y] =>
    destruct (drained_frame y) as (-> & -> & -> & ->);
    destruct (drained_fields y) as (_ & _ & Hi & _) end.
  unfold initialStateName in Hi. rewrite Hi.
  destruct (func_frame (mkTransitionPromise newStateName forward rest)
              (set_transitioning true m) tr) as (-> & -> & -> & -> & _ & -> & _).
  cbn. repeat split; assumption || reflexivity.
Qed.

(** The state an awaited [enterState] that goes through leaves. *)
Lemma enterState_goes_through {R : Realm} newStateName rest currentStateObj newStateObj
    m tr :
  _transitionQueue m = [] ->
  newStateName <> currentStateName m ->
  getState (currentStateName m) m = Some currentStateObj ->
  getState newStateName m = Some newStateObj ->
  passes (transitionCheckOf (currentStateName m) newStateName m) rest ->
  passes (currentStateObj !! "exit") rest ->
  let m1 := after (exec (enterState newStateName rest) m tr) in
  currentStateName m1 = newStateName
  /\ previousStates m1
     = (if String.eqb newStateName (initialStateName m) then []
        else previousStates m ++ [mkPreviousState (currentStateName m) rest]).
Proof.
  intros Hq Hne Hc Hn Hg Hx. cbn zeta. rewrite (exec_enterState _ _ _ _ Hq).
  match goal with |- context [drained ?y] =>
    destruct (drained_fields y) as (-> & -> & _) end.
  destruct (successful_request
              (mkTransitionPromise newStateName forward rest)
              currentStateObj newStateObj (set_transitioning true m) tr
              Hne Hc Hn Hg Hx) as (Hcur & Hprev & _).
  split; [exact Hcur|exact Hprev].
Qed.

(** X8.  [exitState()] undoes [enterState(newStateName, ...rest)].  From
    a registered state, an awaited [enterState] to another registered
    state that is not the initial one, followed by an awaited
    [exitState()] without arguments, brings the machine back to the
    state it left, provided the checks of the two directions and the
    [exit] callbacks of the two states pass on [rest].  The history is
    the one before the two calls (empty when the state returned to is
    the initial one), and the callbacks of the way back receive the
    arguments of the way there. *)
Theorem exitState_undoes_enterState {R : Realm} newStateName rest currentStateObj
    newStateObj m :
  _transitionQueue m = [] ->
  newStateName <> currentStateName m ->
  newStateName <> initialStateName m ->
  getState (currentStateName m) m = Some currentStateObj ->
  getState newStateName m = Some newStateObj ->
  passes (transitionCheckOf (currentStateName m) newStateName m) rest ->
  passes (currentStateObj !! "exit") rest ->
  passes (transitionCheckOf newStateName (currentStateName m) m) rest ->
  passes (newStateObj !! "exit") rest ->
  let m1 := after (exec (enterState newStateName rest) m []) in
  let x := exec (exitState []) m1 [] in
  currentStateName m1 = newStateName
  /\ previousStates m1
     = previousStates m ++ [mkPreviousState (currentStateName m) rest]
  /\ currentStateName (after x) = currentStateName m
  /\ previousStates (after x)
     = (if String.eqb (currentStateName m) (initialStateName m) then []
        else previousStates m)
  /\ trace x
     = invoked (transitionCheck_of newStateName (currentStateName m))
               (transitionCheckOf newStateName (currentStateName m) m) rest
       ++ invoked (exit_of newStateName) (newStateObj !! "exit") rest
       ++ invoked (enter_of (currentStateName m)) (currentStateObj !! "enter")
                  rest.
Proof.
  intros Hq Hne Hni Hc Hn Hg1 Hx1 Hg2 Hx2 m1 x.
  destruct (enterState_frame newStateName rest m [] Hq)
    as (Hs & Ht & Hi & Hq1 & _). fold m1 in Hs, Ht, Hi, Hq1.
  destruct (enterState_goes_through newStateName rest currentStateObj
              newStateObj m [] Hq Hne Hc Hn Hg1 Hx1) as [Hcur1 Hprev1].
  fold m1 in Hcur1, Hprev1.
  assert (Heq : String.eqb newStateName (initialStateName m) = false)
    by (apply String.eqb_neq; exact Hni).
  rewrite Heq in Hprev1.
  split; [exact Hcur1|]. split; [exact Hprev1|].
  unfold currentStateName, previousStates, initialStateName in *.
  assert (Hl : last (_previousStates m1)
               = Some (mkPreviousState (_currentStateName m) rest))
    by (rewrite Hprev1; apply last_snoc).
  unfold x. rewrite (exec_exitState _ _ _ _ Hq1 Hl).
  match goal with |- context [drained ?y] =>
    destruct (drained_fields y) as (Hd1 & Hd2 & _ & Hd3) end.
  unfold currentStateName, previousStates in Hd1, Hd2.
  rewrite Hd1, Hd2, Hd3. clear Hd1 Hd2 Hd3.
  set (m2 := set_transitioning true
               (set_previousStates (removelast (_previousStates m1)) m1)).
  assert (Hg : forall n, getState n m2 = getState n m)
    by (intros n; unfold getState, m2; cbn; rewrite Hs; reflexivity).
  assert (Htc : forall f t, transitionCheckOf f t m2 = transitionCheckOf f t m)
    by (intros f t; unfold transitionCheckOf, m2; cbn; rewrite Ht; reflexivity).
  destruct (successful_request
              (mkTransitionPromise (_currentStateName m) backward rest)
              newStateObj currentStateObj m2 []) as (Hcur & Hprev & Htr & _).
  - cbn. rewrite Hcur1. congruence.
  - cbn [currentStateName m2 set_transitioning set_previousStates
         _currentStateName]. rewrite Hg. cbn. rewrite Hcur1. exact Hn.
  - cbn [tp_newStateName]. rewrite Hg. exact Hc.
  - unfold currentStateName. cbn [tp_newStateName tp_rest m2 set_transitioning
      set_previousStates _currentStateName]. rewrite Htc.
    cbn. rewrite Hcur1. exact Hg2.
  - exact Hx2.
  - cbn [dataArgs_of args name]. unfold currentStateName, previousStates,
      initialStateName in *.
    cbn [tp_newStateName tp_rest tp_direction] in *.
    split; [exact Hcur|]. split.
    + rewrite Hprev. cbn. rewrite Hi, Hprev1, removelast_last. reflexivity.
    + rewrite Htr. cbn. rewrite Htc, Hcur1. reflexivity.
Qed.

Lemma exitState_undoes_enterState_witness :
  currentStateName entered_fsm = "state2"
  /\ previousStates entered_fsm = [mkPreviousState "state1" [VNum 1]]
  /\ (let m1 := after (exec (enterState "state3" [VNum 2]) entered_fsm []) in
      let x := exec (exitState []) m1 [] in
      currentStateName m1 = "state3"
      /\ previousStates m1
         = [mkPreviousState "state1" [VNum 1];
            mkPreviousState "state2" [VNum 2]]
      /\ currentStateName (after x) = "state2"
      /\ previousStates (after x) = [mkPreviousState "state1" [VNum 1]]
      /\ trace x
         = [Invoke (exit_of "state3") [VNum 2];
            Invoke (enter_of "state2") [VNum 2]]).
Proof.
  split; [reflexivity|]. split; [reflexivity|].
  refine (exitState_undoes_enterState "state3" [VNum 2]
            (Defined timed) (Defined timed)
            entered_fsm _ _ _ _ _ _ _ _ _).
  - reflexivity.
  - vm_compute. discriminate.
  - vm_compute. discriminate.
  - reflexivity.
  - reflexivity.
  - by_lookup.
  - by_lookup.
  - by_lookup.
  - by_lookup.
Defined.

(** X9.  After an awaited forward transition that goes through to a
    state other than the initial one, [previousState()] is the entry of
    the state that was left, with the arguments of the transition, and
    [previousStateName()] is its name. *)
Theorem previous_state_after_forward {R : Realm} newStateName rest currentStateObj
    newStateObj m tr :
  _transitionQueue m = [] ->
  newStateName <> currentStateName m ->
  newStateName <> initialStateName m ->
  getState (currentStateName m) m = Some currentStateObj ->
  getState newStateName m = Some newStateObj ->
  passes (transitionCheckOf (currentStateName m) newStateName m) rest ->
  passes (currentStateObj !! "exit") rest ->
  let m1 := after (exec (enterState newStateName rest) m tr) in
  previousState m1 = Some (mkPreviousState (currentStateName m) rest)
  /\ previousStateName m1 = Some (currentStateName m).
Proof.
  intros Hq Hne Hni Hc Hn Hg Hx. cbn zeta.
  destruct (enterState_goes_through newStateName rest currentStateObj
              newStateObj m tr Hq Hne Hc Hn Hg Hx) as [_ Hprev].
  unfold previousState, previousStateName, previousStates in *.
  rewrite Hprev.
  destruct (String.eqb newStateName (initialStateName m)) eqn:Heq;
    [apply String.eqb_eq in Heq; contradiction|].
  rewrite last_snoc. split; reflexivity.
Qed.

Lemma previous_state_after_forward_witness :
  currentStateName started_fsm = "state1"
  /\ previousStateName started_fsm = None
  /\ (let m1 := after (exec (enterState "state2" [VNum 5]) started_fsm []) in
      previousState m1 = Some (mkPreviousState "state1" [VNum 5])
      /\ previousStateName m1 = Some "state1").
Proof.
  split; [reflexivity|]. split; [reflexivity|].
  refine (previous_state_after_forward "state2" [VNum 5]
            (Defined ∅) (Defined timed)
            started_fsm [] _ _ _ _ _ _ _).
  - reflexivity.
  - vm_compute. discriminate.
  - vm_compute. discriminate.
  - reflexivity.
  - reflexivity.
  - by_lookup.
  - by_lookup.
Defined.

(** ** An invariant of awaited use *)

Lemma Forall_removelast {X : Type} (P : X -> Prop) (l : list X) :
  Forall P l -> Forall P (removelast l).
Proof.
  induction l as [|a l IH]; intros H; [constructor|].
  inversion H as [|? ? Ha Hl]; subst. cbn.
  destruct l; [constructor|]. constructor; [exact Ha|apply IH, Hl].
Qed.

Lemma func_history_found {R : Realm} tp m tr :
  history_found m ->
  history_found (after (exec (func tp) m tr)).
Proof.
  unfold history_found. intros [H Hcur]. unfold_methods.
  unfold getState in *.
  run_body;
    (split;
     [|first [exact Hcur|left; reflexivity|right; eexists; eassumption
             |destruct Hcur as [Hcur|[? Hcur]];
              [left; exact Hcur|discriminate Hcur]]]);
    try exact H; try constructor.
  all: apply Forall_app; split; [exact H|].
  all: constructor; [|constructor].
  all: cbn; eauto.
Qed.

Lemma drained_history_found x :
  history_found (after x) -> history_found (after (drained x)).
Proof. destruct x as [[[v|e|] m] tr]; trivial. Qed.

Lemma perform_quiescent {R : Realm} o m : quiescent m -> quiescent (perform o m).
Proof.
  intros [Hq Hh].
  destruct o as [n d|f t c|n rest|n rest|rest|e rest|k v|b]; cbn [perform].
  - split.
    + unfold defineState. destruct (falsy _); exact Hq.
    + unfold history_found in *. destruct Hh as [Hh Hcur].
      assert (Hp : _previousStates (defineState n d m) = _previousStates m)
        by (unfold defineState; destruct (falsy _); reflexivity).
      assert (Hc : _currentStateName (defineState n d m) = _currentStateName m)
        by (unfold defineState; destruct (falsy _); reflexivity).
      destruct (getState_defineState n d m) as [Hsame Hother].
      assert (Hkeep : forall k, is_Some (getState k m) ->
                is_Some (getState k (defineState n d m))).
      { intros k Hk. destruct (decide (k = n)) as [->|Hne];
          [rewrite Hsame; eauto|rewrite (Hother _ Hne); exact Hk]. }
      rewrite Hp, Hc. split.
      * eapply Forall_impl; [exact Hh|]. intros entry Hd. apply Hkeep, Hd.
      * destruct Hcur as [Hcur|Hcur]; [left; exact Hcur|right; apply Hkeep, Hcur].
  - unfold defineTransition. destruct c; [|split; assumption].
    destruct (falsy f || falsy t); split; assumption.
  - unfold initialState. cbn [exec bind this].
    destruct (getState n m) as [obj|]; [|split; assumption].
    run_body; split; try exact Hq; (split; [constructor|left; reflexivity]).
  - rewrite (exec_enterState _ _ _ _ Hq). split.
    + destruct (drained_frame
                  (exec (func (mkTransitionPromise n forward rest))
                        (set_transitioning true m) [])) as (_ & _ & -> & _).
      destruct (func_frame (mkTransitionPromise n forward rest)
                  (set_transitioning true m) []) as (_ & _ & _ & -> & _).
      exact Hq.
    + apply drained_history_found, func_history_found. exact Hh.
  - destruct (last (_previousStates m)) as [entry|] eqn:Hl.
    + rewrite (exec_exitState _ _ _ _ Hq Hl). split.
      * match goal with |- context [drained ?y] =>
          destruct (drained_frame y) as (_ & _ & -> & _) end.
        match goal with |- context [exec (func ?tp) ?m0 ?tr0] =>
          destruct (func_frame tp m0 tr0) as (_ & _ & _ & -> & _) end.
        exact Hq.
      * apply drained_history_found, func_history_found.
        unfold history_found in *. destruct Hh as [Hh Hcur]. cbn. split.
        -- apply Forall_removelast, Hh.
        -- right. destruct Hcur as [Hcur|Hcur]; [|exact Hcur].
           rewrite Hcur in Hl. discriminate.
    + unfold exitState. cbn [exec bind this]. rewrite Hl. split; assumption.
  - rewrite raiseEvent_machine. split; assumption.
  - split; assumption.
  - destruct b; split; assumption.
Qed.

(** X10.  Whatever sequence of public operations a host performs on a
    fresh machine, awaiting each promise, the queue is empty between
    the operations and [getState] finds a state object under the name
    of every history entry (a registered definition, or the built-in
    inherited under a member name of [Object.prototype] that was
    entered without being registered).  In particular, whenever the
    history is not empty, [getState] finds a state object under the
    name [exitState] would go back to and under the current state name:
    a backward transition never fails for a state that is not
    defined. *)
Theorem history_names_found_states {R : Realm} ops :
  let m := perform_all ops new_FiniteStateMachine in
  _transitionQueue m = []
  /\ Forall (fun entry => is_Some (getState (name entry) m)) (previousStates m)
  /\ (forall entry, last (previousStates m) = Some entry ->
        is_Some (getState (name entry) m)
        /\ is_Some (getState (currentStateName m) m)).
Proof.
  cbn zeta.
  assert (H : quiescent (perform_all ops new_FiniteStateMachine)).
  { assert (H0 : quiescent new_FiniteStateMachine)
      by (split; [reflexivity|split; [constructor|left; reflexivity]]).
    revert H0. generalize new_FiniteStateMachine.
    induction ops as [|o ops IH]; intros m H0; [exact H0|].
    cbn [perform_all fold_left]. apply IH, perform_quiescent, H0. }
  destruct H as [Hq [Hh Hcur]]. split; [exact Hq|]. split; [exact Hh|].
  intros entry Hl. unfold previousStates, currentStateName in *. split.
  - clear Hcur. rewrite Forall_forall in Hh. apply Hh.
    apply last_Some in Hl as [l' ->]. set_solver.
  - destruct Hcur as [Hcur|Hcur]; [|exact Hcur].
    rewrite Hcur in Hl. discriminate.
Qed.

(** ** Event dispatch *)

Lemma writes_nothing_start p m :
  writes_nothing p m ->
  match start p m with
  | (m', inl _) => m' = m
  | (m', inr (_, s)) => m' = m /\ forall v m2, writes_nothing (resume s v) m2
  end.
Proof.
  revert m. induction p as [a|e| |k IH|m0 k IH|l g rest k IH]; intros m H;
    cbn [start writes_nothing resume] in *; try reflexivity.
  - apply IH, H.
  - destruct H as [-> H]. apply IH, H.
  - split; [reflexivity|exact H].
Qed.

Lemma raiseEvent_writes_nothing {R : Realm} eventName rest m :
  writes_nothing (raiseEvent eventName rest) m.
Proof.
  unfold raiseEvent.
  repeat first [ progress cbn [writes_nothing bind this await]
               | case_match | intro | split | reflexivity ].
Qed.

Lemma raises_step {R : Realm} a w :
  raises a ->
  Forall (fun c => forall v m2, writes_nothing (resume c.2 v) m2) (pool w) ->
  machine (step a w) = machine w
  /\ Forall (fun c => forall v m2, writes_nothing (resume c.2 v) m2)
            (pool (step a w)).
Proof.
  assert (Hproceed : forall id p w0,
            writes_nothing p (machine w0) ->
            Forall (fun c => forall v m2, writes_nothing (resume c.2 v) m2)
                   (pool w0) ->
            machine (proceed id p w0) = machine w0
            /\ Forall (fun c => forall v m2, writes_nothing (resume c.2 v) m2)
                      (pool (proceed id p w0))).
  { intros id p w0 Hp Hpool. unfold proceed.
    pose proof (writes_nothing_start p (machine w0) Hp) as Hs.
    destruct (start p (machine w0)) as [m' [r|[rest s]]]; cbn.
    - split; [exact Hs|exact Hpool].
    - destruct Hs as [-> Hk]. split; [reflexivity|].
      apply Forall_app; split; [exact Hpool|].
      constructor; [exact Hk|constructor]. }
  intros Ha Hpool. destruct Ha as [e rest|id]; cbn [step].
  - apply (Hproceed (next_call w) (raiseEvent e rest)
             (mkWorld (machine w) (pool w) (timeline w) (S (next_call w))));
      [apply raiseEvent_writes_nothing|exact Hpool].
  - destruct (take_suspension id (pool w)) as [[s pool']|] eqn:Htake;
      [|split; [reflexivity|exact Hpool]].
    destruct (take_suspension_Forall _ _ _ _ _ Htake Hpool) as [[i Hs] Hpool'].
    cbn in Hs. destruct (will_settle s) as [v|e].
    + match goal with
      | |- context [proceed id ?p ?w0] =>
          destruct (Hproceed id p w0 (Hs v _) Hpool') as [Hm Hp]
      end.
      split; [exact Hm|exact Hp].
    + split; [reflexivity|exact Hpool'].
Qed.

(** X11.  [raiseEvent] assigns no field of the machine.  Whatever the
    machine is when the call starts, and whatever it has become when
    the call is resumed after a handler, the call leaves it as it finds
    it: a change seen during a [raiseEvent] is the work of a handler or
    of another call.  So a host that only raises events, awaited or
    not, and whose handlers leave the machine alone, never changes the
    machine, however the handlers settle. *)
Theorem raiseEvent_leaves_machine {R : Realm} :
  (forall eventName rest m, writes_nothing (raiseEvent eventName rest) m)
  /\ (forall schedule m,
        Forall raises schedule -> machine (run schedule (boot m)) = m).
Proof.
  split; [intros; apply raiseEvent_writes_nothing|].
  intros schedule m Hs.
  assert (H : forall w,
            Forall (fun c => forall v m2, writes_nothing (resume c.2 v) m2)
                   (pool w) ->
            machine (run schedule w) = machine w).
  { induction Hs as [|a schedule Ha Hs IH]; intros w Hw; [reflexivity|].
    cbn [run fold_left].
    change (fold_left _ schedule ?x) with (run schedule x).
    destruct (raises_step a w Ha Hw) as [Hm Hp].
    rewrite (IH _ Hp). exact Hm. }
  apply (H (boot m)). constructor.
Qed.

(** X12.  When [getState] finds a state object under the current state
    name and the handlers involved fulfil, [raiseEvent(eventName,
    ...rest)] invokes, in this order and each with [rest], the handler
    the read [stateObj[eventName]] finds on the [beforeAll] state, on
    the current state object and on the [afterAll] state, each only
    when the read finds one; the call settles with the value of the
    current state's handler, or with [undefined] when the read finds
    none.  The values of the two hooks are dropped.  The read finds
    the handler the definition has, and otherwise, under a member name
    of [Object.prototype], the built-in every definition inherits. *)
Theorem raiseEvent_dispatch {R : Realm} eventName rest currentStateObj m tr :
  getState (currentStateName m) m = Some currentStateObj ->
  fulfils (handlerOf "beforeAll" eventName m) rest ->
  fulfils (readHandler false currentStateObj eventName) rest ->
  fulfils (handlerOf "afterAll" eventName m) rest ->
  let x := exec (raiseEvent eventName rest) m tr in
  trace x
  = tr ++ invoked (handler_of "beforeAll" eventName)
                  (handlerOf "beforeAll" eventName m) rest
       ++ invoked (handler_of (currentStateName m) eventName)
                  (readHandler false currentStateObj eventName) rest
       ++ invoked (handler_of "afterAll" eventName)
                  (handlerOf "afterAll" eventName m) rest
  /\ outcome x
     = match readHandler false currentStateObj eventName with
       | Some h => settlement (h rest)
       | None => Fulfilled VUndefined
       end
  /\ (forall definition,
        currentStateObj = Defined definition ->
        readHandler false currentStateObj eventName
        = match definition !! eventName with
          | Some h => Some h
          | None =>
              if inherited eventName
              then Some (native (Some definition) eventName)
              else None
          end).
Proof.
  unfold fulfils, invoked, currentStateName.
  intros Hc Hb Hh Ha. cbn zeta.
  apply and_assoc. split; [|intros definition ->; reflexivity].
  unfold raiseEvent. cbn [exec bind this].
  destruct (handlerOf "beforeAll" eventName m) as [hb|].
  - destruct (Hb hb eq_refl) as [vb Hvb].
    cbn [exec bind await]. rewrite Hvb. cbn [exec bind this]. rewrite Hc.
    destruct (readHandler false currentStateObj eventName) as [h|].
    + destruct (Hh h eq_refl) as [v Hv].
      cbn [exec bind await]. rewrite Hv. cbn [exec bind this].
      destruct (handlerOf "afterAll" eventName m) as [ha|].
      * destruct (Ha ha eq_refl) as [va Hva].
        cbn [exec bind await]. rewrite Hva. close_dispatch.
      * close_dispatch.
    + cbn [exec bind this].
      destruct (handlerOf "afterAll" eventName m) as [ha|].
      * destruct (Ha ha eq_refl) as [va Hva].
        cbn [exec bind await]. rewrite Hva. close_dispatch.
      * close_dispatch.
  - cbn [exec bind this]. rewrite Hc.
    destruct (readHandler false currentStateObj eventName) as [h|].
    + destruct (Hh h eq_refl) as [v Hv].
      cbn [exec bind await]. rewrite Hv. cbn [exec bind this].
      destruct (handlerOf "afterAll" eventName m) as [ha|].
      * destruct (Ha ha eq_refl) as [va Hva].
        cbn [exec bind await]. rewrite Hva. close_dispatch.
      * close_dispatch.
    + cbn [exec bind this].
      destruct (handlerOf "afterAll" eventName m) as [ha|].
      * destruct (Ha ha eq_refl) as [va Hva].
        cbn [exec bind await]. rewrite Hva. close_dispatch.
      * close_dispatch.
Qed.

Lemma raiseEvent_dispatch_witness :
  currentStateName observed_fsm = "on"
  /\ (let x := exec (raiseEvent "ping" [VNum 1]) observed_fsm [] in
      trace x
      = [Invoke (handler_of "beforeAll" "ping") [VNum 1];
         Invoke (handler_of "on" "ping") [VNum 1];
         Invoke (handler_of "afterAll" "ping") [VNum 1]]
      /\ outcome x = Fulfilled (VStr "pong")).
Proof.
  split; [reflexivity|].
  assert (Hc : getState (currentStateName observed_fsm) observed_fsm
               = Some (Defined (<["ping" := pong]> ∅))) by reflexivity.
  destruct (raiseEvent_dispatch "ping" [VNum 1] _ observed_fsm [] Hc)
    as (Ht & Ho & _); [by_lookup|by_lookup|by_lookup|].
  split; [exact Ht|exact Ho].
Defined.

(** ** Names the registry inherits *)



(** ** The outcome of an awaited call *)

(** X14.  The promise of an awaited [enterState] between two different
    states that [getState] finds, with nothing else queued.  It rejects
    exactly when a callback of the request rejects (the check, or the
    [exit] of the current state if the check let the request go on, or
    the [enter] of the target if both did), with the reason of that
    callback, and [_transitioning] is then left set.  In every other
    case it fulfils with [undefined], whatever the callbacks resolved
    to, and [_transitioning] is cleared.  The queue is empty
    afterwards. *)
Theorem enterState_outcome {R : Realm} newStateName rest currentStateObj
    newStateObj m tr :
  _transitionQueue m = [] ->
  newStateName <> currentStateName m ->
  getState (currentStateName m) m = Some currentStateObj ->
  getState newStateName m = Some newStateObj ->
  let check := transitionCheckOf (currentStateName m) newStateName m in
  let exit := currentStateObj !! "exit" in
  let enter := newStateObj !! "enter" in
  let x := exec (enterState newStateName rest) m tr in
  outcome x
  = match stops check rest with
    | Some (Rejected r) => Rejected r
    | Some _ => Fulfilled VUndefined
    | None =>
        match stops exit rest with
        | Some (Rejected r) => Rejected r
        | Some _ => Fulfilled VUndefined
        | None =>
            match enter with
            | Some c =>
                match c rest with
                | Rejects r => Rejected r
                | Fulfils _ => Fulfilled VUndefined
                end
            | None => Fulfilled VUndefined
            end
        end
    end
  /\ _transitioning (after x)
     = match outcome x with
       | Rejected _ => true
       | _ => false
       end
  /\ _transitionQueue (after x) = [].
Proof.
  intros Hq Hne Hc Hn. cbn zeta. rewrite (exec_enterState _ _ _ _ Hq).
  destruct (request_result (mkTransitionPromise newStateName forward rest)
              currentStateObj newStateObj (set_transitioning true m) tr
              Hne Hc Hn) as (_ & Ho & _).
  pose proof (func_frame (mkTransitionPromise newStateName forward rest)
                (set_transitioning true m) tr) as (_ & _ & _ & Hq' & Ht' & _).
  cbn [tp_rest tp_newStateName] in Ho.
  change (transitionCheckOf (currentStateName (set_transitioning true m))
            newStateName (set_transitioning true m))
    with (transitionCheckOf (currentStateName m) newStateName m) in Ho.
  unfold stops in *.
  destruct (exec (func _) _ tr) as [[[v|e|] m'] tr'];
    cbn [outcome after trace drained fst snd _transitioning _transitionQueue
         set_transitioning] in *;
    repeat case_match; simplify_eq; cbn [settlement] in *; simplify_eq;
    repeat split; try reflexivity; try congruence.
Qed.

Lemma enterState_outcome_witness :
  currentStateName failing_fsm = "a"
  /\ (let x := exec (enterState "b" [VNum 1]) failing_fsm [] in
      outcome x = Rejected (VErr PlainError "boom")
      /\ _transitioning (after x) = true)
  /\ currentStateName locked_fsm = "a"
  /\ (let x := exec (enterState "b" [VNum 1]) locked_fsm [] in
      outcome x = Fulfilled VUndefined
      /\ _transitioning (after x) = false).
Proof.
  split; [reflexivity|]. split.
  - destruct (enterState_outcome "b" [VNum 1]
                (Defined (<["exit" := fails]> ∅)) (Defined ∅) failing_fsm [])
      as (Ho & Ht & _);
      [reflexivity|vm_compute; discriminate|reflexivity|reflexivity|].
    split; [exact Ho|]. rewrite Ht, Ho. reflexivity.
  - split; [reflexivity|].
    destruct (enterState_outcome "b" [VNum 1]
                (Defined (<["exit" := refuses]> ∅)) (Defined ∅) locked_fsm [])
      as (Ho & Ht & _);
      [reflexivity|vm_compute; discriminate|reflexivity|reflexivity|].
    split; [exact Ho|]. rewrite Ht, Ho. reflexivity.
Defined.

(** ** Calls that are not awaited *)

(** X15.  What a call of [enterState] has done when it returns its
    promise, before any callback settles.  Between two different
    registered states whose names are no member names of
    [Object.prototype], with nothing queued: when there is a check
    for the pair, the call has invoked the check and changed neither
    the current state name nor the history; when there is no check and
    the current state has an [exit], it has invoked the [exit] and
    changed neither; when there is neither, the current state name is
    already the target, the history has its new entry (or is empty when
    the target is the initial state), and the [enter] of the target,
    when it has one, has been invoked. *)
Theorem enterState_synchronous_part {R : Realm} newStateName rest currentStateObj
    newStateObj m :
  _transitionQueue m = [] ->
  newStateName <> currentStateName m ->
  inherited (currentStateName m) = false ->
  inherited newStateName = false ->
  getState (currentStateName m) m = Some currentStateObj ->
  getState newStateName m = Some newStateObj ->
  let now := start (enterState newStateName rest) m in
  match transitionCheckOf (currentStateName m) newStateName m,
        currentStateObj !! "exit" with
  | Some _, _ =>
      currentStateName now.1 = currentStateName m
      /\ previousStates now.1 = previousStates m
      /\ waiting_on (transitionCheck_of (currentStateName m) newStateName)
                    rest now.2
  | None, Some _ =>
      currentStateName now.1 = currentStateName m
      /\ previousStates now.1 = previousStates m
      /\ waiting_on (exit_of (currentStateName m)) rest now.2
  | None, None =>
      currentStateName now.1 = newStateName
      /\ previousStates now.1
         = (if String.eqb newStateName (initialStateName m) then []
            else previousStates m
                 ++ [mkPreviousState (currentStateName m) rest])
      /\ (forall enter,
            newStateObj !! "enter" = Some enter ->
            waiting_on (enter_of newStateName) rest now.2)
  end.
Proof.
  unfold currentStateName, previousStates, initialStateName, waiting_on.
  intros Hq Hne _ _ Hc Hn. cbn zeta.
  unfold_methods. cbn [start bind modify this]. rewrite Hq.
  cbn [app length _processTransition]. unfold_methods.
  unfold getState, transitionCheckOf in *.
  run_body; simplify_eq;
    try match goal with
        | H : (_ =? _) = true |- _ => apply String.eqb_eq in H; congruence
        end;
    repeat split; try reflexivity;
    try (intros ? ?); try congruence; eexists; split; reflexivity.
Qed.

Lemma enterState_synchronous_part_witness :
  currentStateName entered_fsm = "state2"
  /\ (let now := start (enterState "state3" [VNum 2]) entered_fsm in
      currentStateName now.1 = "state2"
      /\ previousStates now.1 = previousStates entered_fsm
      /\ waiting_on (exit_of "state2") [VNum 2] now.2).
Proof.
  split; [reflexivity|].
  refine (enterState_synchronous_part "state3" [VNum 2]
            (Defined timed) (Defined timed)
            entered_fsm _ _ _ _ _ _).
  - reflexivity.
  - vm_compute. discriminate.
  - reflexivity.
  - reflexivity.
  - reflexivity.
  - reflexivity.
Defined.

(** X16.  Whatever the host calls among [initialState], [enterState],
    [exitState] and [raiseEvent], awaited or not, and whenever the
    callbacks settle, the transition queue is empty after every action:
    each call dequeues the request it queued before it first suspends.
    No call ever exhausts the recursion of [_processTransition]. *)
Theorem queue_is_always_empty {R : Realm} schedule m :
  Forall api schedule ->
  _transitionQueue m = [] ->
  let w := run schedule (boot m) in
  _transitionQueue (machine w) = []
  /\ Forall (fun entry => entry.2 <> Completed OutOfFuel) (timeline w).
Proof.
  intros Hs Hq.
  destruct (requests_never_wait schedule m Hs Hq) as (H1 & _ & H3).
  split; assumption.
Qed.

Lemma queue_is_always_empty_witness :
  Forall api racing_abc
  /\ _transitionQueue abc_fsm = []
  /\ _transitionQueue (machine (run racing_abc (boot abc_fsm))) = [].
Proof.
  assert (Hs : Forall api racing_abc) by (repeat constructor).
  assert (Hq : _transitionQueue abc_fsm = []) by reflexivity.
  split; [exact Hs|]. split; [exact Hq|].
  exact (proj1 (queue_is_always_empty racing_abc abc_fsm Hs Hq)).
Defined.

(** ** The constructor *)

Lemma defineEntries_other k entries m :
  k ∉ map fst entries ->
  getState k (defineEntries entries m) = getState k m.
Proof.
  revert m. induction entries as [|[k' d'] entries IH]; intros m Hk;
    [reflexivity|].
  cbn [defineEntries fold_left].
  change (fold_left _ entries ?x) with (defineEntries entries x).
  cbn in Hk. apply not_elem_of_cons in Hk as [Hne Hk].
  rewrite IH by exact Hk. cbn [fst snd].
  destruct (getState_defineState k' (Some d') m) as (_ & Ho).
  apply Ho, Hne.
Qed.

Lemma defineEntries_lookup k d entries m :
  NoDup (map fst entries) ->
  (k, d) ∈ entries ->
  getState k (defineEntries entries m) = Some (Defined d).
Proof.
  revert m. induction entries as [|[k' d'] entries IH]; intros m Hnd Hin.
  - inversion Hin.
  - cbn in Hnd. apply NoDup_cons in Hnd as [Hk' Hnd].
    cbn [defineEntries fold_left].
    change (fold_left _ entries ?x) with (defineEntries entries x).
    apply elem_of_cons in Hin as [[= -> ->]|Hin].
    + rewrite defineEntries_other by exact Hk'. cbn [fst snd].
      destruct (getState_defineState k' (Some d') m) as (Hs & _).
      exact Hs.
    + apply IH; assumption.
Qed.

Lemma start_initialState stateName rest m :
  start (initialState stateName rest) m
  = match getState stateName m with
    | None =>
        (m, inl (Rejected (VErr PlainError (initialState_message stateName))))
    | Some newStateObj =>
        (set_previousStates []
           (set_currentStateName stateName
              (set_initialStateName stateName m)),
         match newStateObj !! "enter" with
         | Some enter =>
             inr (rest, mkSuspension (enter_of stateName) (enter rest) Ret)
         | None => inl (Fulfilled VUndefined)
         end)
    end.
Proof.
  unfold initialState. cbn [start bind this].
  destruct (getState stateName m) as [obj|]; [|reflexivity].
  cbn [start bind modify]. destruct (obj !! "enter"); reflexivity.
Qed.

(** X17.  [new FiniteStateMachine({states, initialState})] with a
    non-empty [initialState] name.  Every entry of [states] is
    registered under its key.  When [getState] then finds a state object
    under the name (one of the entries, or the built-in inherited under
    a member name of [Object.prototype]), the machine is constructed in
    that state, which is also the initial state, with an empty history,
    and the [enter] of the state, if it has one, has been invoked
    without arguments and is not awaited.  When [getState] finds
    nothing, the rejection of [initialState] is dropped and the machine
    is the one the [states] alone give: no current state. *)
Theorem constructor_with_initial_data entries n :
  n <> EmptyString ->
  let m0 := defineEntries entries new_FiniteStateMachine in
  let w := constructor (Some (mkInitialData (Some entries) (Some n))) in
  (NoDup (map fst entries) ->
   forall k d, (k, d) ∈ entries ->
               getState k (machine w) = Some (Defined d))
  /\ match getState n m0 with
     | Some newStateObj =>
         currentStateName (machine w) = n
         /\ initialStateName (machine w) = n
         /\ previousStates (machine w) = []
         /\ timeline w
            = [(0, match newStateObj !! "enter" with
                   | Some _ => Invoked (enter_of n) []
                   | None => Completed (Fulfilled VUndefined)
                   end)]
     | None =>
         machine w = m0
         /\ timeline w
            = [(0, Completed (Rejected
                                (VErr PlainError (initialState_message n))))]
     end.
Proof.
  intros Hne m0 w.
  assert (Hw : w = step (call (initialState n [])) (boot m0)).
  { unfold w, constructor. cbn [data_states data_initialState].
    rewrite (falsy_false n Hne). reflexivity. }
  assert (Hst : _states (machine w) = _states m0).
  { rewrite Hw. unfold step, proceed, boot. cbn [machine].
    rewrite start_initialState.
    destruct (getState n m0) as [obj|]; [|reflexivity].
    destruct (obj !! "enter"); reflexivity. }
  split.
  - intros Hnd k d Hin. unfold getState. rewrite Hst.
    apply (defineEntries_lookup k d entries new_FiniteStateMachine Hnd Hin).
  - rewrite Hw. unfold step, proceed, boot. cbn [machine].
    rewrite start_initialState.
    destruct (getState n m0) as [obj|]; [|split; reflexivity].
    destruct (obj !! "enter"); repeat split; reflexivity.
Qed.

Lemma constructor_with_initial_data_witness :
  "state2" <> EmptyString
  /\ (let w := constructor
                 (Some (mkInitialData (Some sample_entries) (Some "state2"))) in
      currentStateName (machine w) = "state2"
      /\ initialStateName (machine w) = "state2"
      /\ previousStates (machine w) = []
      /\ timeline w = [(0, Invoked (enter_of "state2") [])]).
Proof.
  assert (Hne : "state2" <> EmptyString) by discriminate.
  split; [exact Hne|].
  exact (proj2 (constructor_with_initial_data sample_entries "state2" Hne)).
Defined.

(** ** Callbacks that reject *)

(** X18.  A rejection of a callback reaches the caller of [enterState]:
    the promise rejects with the reason of the callback, no later
    callback is invoked and [_transitioning] stays set.  When the check
    or the [exit] of the current state rejects, nothing else has
    changed; when the [enter] of the target rejects, the machine is
    already in the target state. *)
Theorem rejection_reaches_caller {R : Realm} newStateName rest currentStateObj newStateObj
    r m tr :
  _transitionQueue m = [] ->
  newStateName <> currentStateName m ->
  getState (currentStateName m) m = Some currentStateObj ->
  getState newStateName m = Some newStateObj ->
  let check := transitionCheckOf (currentStateName m) newStateName m in
  let exit := currentStateObj !! "exit" in
  let enter := newStateObj !! "enter" in
  let x := exec (enterState newStateName rest) m tr in
  (rejects check rest r ->
   x = (Rejected r, set_transitioning true m,
        tr ++ [Invoke (transitionCheck_of (currentStateName m) newStateName)
                      rest]))
  /\ (passes check rest -> rejects exit rest r ->
      x = (Rejected r, set_transitioning true m,
           tr ++ invoked (transitionCheck_of (currentStateName m) newStateName)
                         check rest
              ++ [Invoke (exit_of (currentStateName m)) rest]))
  /\ (passes check rest -> passes exit rest -> rejects enter rest r ->
      outcome x = Rejected r
      /\ currentStateName (after x) = newStateName
      /\ _transitioning (after x) = true
      /\ trace x
         = tr ++ invoked (transitionCheck_of (currentStateName m) newStateName)
                         check rest
              ++ invoked (exit_of (currentStateName m)) exit rest
              ++ [Invoke (enter_of newStateName) rest]).
Proof.
  unfold passes, rejects, invoked, currentStateName.
  intros Hq Hne Hc Hn. cbn zeta.
  rewrite (exec_enterState _ _ _ _ Hq).
  split; [|split].
  - intros (c & Hg & Hr). unfold_methods.
    unfold getState, transitionCheckOf in *.
    run_body; simplify_eq; use_passes; simplify_eq; try congruence;
      merge_rejected; reflexivity.
  - intros Hg (c & Hx & Hr). unfold_methods.
    unfold getState, transitionCheckOf in *.
    run_body; simplify_eq; use_passes; simplify_eq; try congruence;
      merge_settled; merge_rejected; rewrite <- ?app_assoc; reflexivity.
  - intros Hg Hx (c & He & Hr). unfold_methods.
    unfold getState, transitionCheckOf in *.
    run_body; simplify_eq; use_passes; simplify_eq; try congruence;
      merge_settled; merge_rejected; rewrite <- ?app_assoc, ?app_nil_r;
      repeat split; reflexivity.
Qed.

Lemma rejection_reaches_caller_witness :
  currentStateName failing_fsm = "a"
  /\ exec (enterState "b" [VNum 1]) failing_fsm []
     = (Rejected (VErr PlainError "boom"), set_transitioning true failing_fsm,
        [Invoke (exit_of "a") [VNum 1]]).
Proof.
  split; [reflexivity|].
  refine (proj1 (proj2 (rejection_reaches_caller "b" [VNum 1]
            (Defined (<["exit" := fails]> ∅)) (Defined ∅)
            (VErr PlainError "boom")
            failing_fsm [] _ _ _ _)) _ _).
  - reflexivity.
  - vm_compute. discriminate.
  - reflexivity.
  - reflexivity.
  - by_lookup.
  - exists fails. split; reflexivity.
Defined.
